(** * The race engine of the Temporal Stochastic Unit (src/src/tsu.cpp)

    A shallow embedding of [run_symmetric_race] and the properties of its
    thresholds, its polling loop and its decision extraction.

    The function depends on the [float] bias it is called with, on one
    sample of the CPU cycle counter and on the successive values returned
    by [esp_timer_get_time].  They are the inputs of the model: a binary32
    float, an integer, and the stream of clock readings indexed by the
    number of the call.  One more input, [undef], stands for the [int] that
    the target leaves in the place of [(int)(bias * 500)] when C++ does not
    define that conversion; nothing is assumed about it. *)

From Stdlib Require Import ZArith Lia Bool List.
From Stdlib Require Import Floats.SpecFloat.

Local Open Scope Z_scope.

(** ** Machine integers

    [uint32_t], [int] (32 bits on the ESP32) and [int64_t] are integers of
    [Z] reduced into their range.  Conversions to an unsigned type are
    modular in C++; for the signed types the wrap-around is the one of the
    two's complement target. *)
Module Mach.

Definition to_u32 (z : Z) : Z := z mod 2 ^ 32.

Definition to_int (z : Z) : Z := (z + 2 ^ 31) mod 2 ^ 32 - 2 ^ 31.

Definition to_i64 (z : Z) : Z := (z + 2 ^ 63) mod 2 ^ 64 - 2 ^ 63.

Definition INT_MIN : Z := - 2 ^ 31.
Definition INT_MAX : Z := 2 ^ 31 - 1.

Definition in_int (z : Z) : bool := (INT_MIN <=? z) && (z <=? INT_MAX).

(** [x - y] on [int64_t]. *)
Definition sub64 (x y : Z) : Z := to_i64 (x - y).

End Mach.

(** ** Single precision floats

    [float] is IEEE 754 binary32: 24 bits of precision, infinities at
    exponent 128.  The arithmetic is the Standard Library's specification
    of IEEE operations at that format. *)
Module F32.

Definition prec : Z := 24.
Definition emax : Z := 128.

Definition float : Type := spec_float.

Definition well_formed (f : float) : bool := valid_binary prec emax f.

Definition mul (x y : float) : float := SFmul prec emax x y.

(** Conversion of an [int] to [float], as [bias * 500] does with 500. *)
Definition of_int (n : Z) : float := binary_normalize prec emax n 0 false.

(** The integer part of a finite float, rounded toward zero: the
    magnitude [m * 2^e] is shifted left for [e >= 0] and right (dropping
    the fraction bits) for [e < 0]; the sign is applied afterwards. *)
Definition trunc (f : float) : option Z :=
  match f with
  | S754_zero _ => Some 0
  | S754_finite s m e => Some (cond_Zopp s (Z.shiftl (Zpos m) e))
  | S754_infinity _ => None
  | S754_nan => None
  end.

(** [(int)f].  The conversion truncates; it has no defined result when the
    truncated value is not an [int] (nor for infinities and NaN). *)
Definition to_int (f : float) : option Z :=
  match trunc f with
  | Some t => if Mach.in_int t then Some t else None
  | None => None
  end.

(** The rational value of a finite float as a fraction [num / den]. *)
Definition num (s : bool) (m : positive) (e : Z) : Z :=
  cond_Zopp s (Zpos m * 2 ^ Z.max e 0).
Definition den (e : Z) : Z := 2 ^ Z.max (- e) 0.

End F32.

(** ** Thresholds *)

Definition baseline : Z := 1000.
Definition bias_scale : Z := 500.
Definition timeout : Z := 5000.

(** [(uint32_t)esp_cpu_get_cycle_count() % 5] *)
Definition cpu_jitter (cycle_count : Z) : Z := Mach.to_u32 cycle_count mod 5.

(** [(int)(bias * 500)].  Where the conversion is not defined the result
    is [undef], as an [int]. *)
Definition drift (undef : Z) (bias : F32.float) : Z :=
  match F32.to_int (F32.mul bias (F32.of_int bias_scale)) with
  | Some d => d
  | None => Mach.to_int undef
  end.

(** [uint32_t target_a = 1000 - (int)(bias * 500) + cpu_jitter;]
    The difference is an [int]; adding the [uint32_t] jitter converts it to
    [uint32_t] and the sum is unsigned. *)
Definition target_a (undef : Z) (bias : F32.float) (cycle_count : Z) : Z :=
  Mach.to_u32 (Mach.to_u32 (Mach.to_int (baseline - drift undef bias))
               + cpu_jitter cycle_count).

(** [uint32_t target_b = 1000 + (int)(bias * 500);] *)
Definition target_b (undef : Z) (bias : F32.float) : Z :=
  Mach.to_u32 (Mach.to_int (baseline + drift undef bias)).

(** ** The race loop *)

(** The clock: [now n] is the value of the [n]-th call of
    [esp_timer_get_time] made by one invocation, the call that sets
    [start] being number 0. *)
Definition clock : Type := nat -> Z.

(** The two arrival markers, [uint32_t arrival_a, arrival_b]. *)
Record markers : Type := Markers { arrival_a : Z; arrival_b : Z }.

Definition no_arrival : markers := Markers 0 0.

(** The loop condition [arrival_a == 0 || arrival_b == 0]. *)
Definition pending (m : markers) : bool :=
  (arrival_a m =? 0) || (arrival_b m =? 0).

(** The two conditional assignments of one iteration.  [current] is an
    [int64_t] and the targets are [uint32_t], so the comparison is done on
    [int64_t] with the targets unchanged; the assignment casts [current]
    to [uint32_t]. *)
Definition poll (ta tb current : Z) (m : markers) : markers :=
  Markers
    (if (arrival_a m =? 0) && (current >=? ta)
     then Mach.to_u32 current else arrival_a m)
    (if (arrival_b m =? 0) && (current >=? tb)
     then Mach.to_u32 current else arrival_b m).

(** [while (arrival_a == 0 || arrival_b == 0) { ... if (current > 5000) break; }]
    [k] counts the polls already made; [fuel] bounds the number of
    iterations, [None] meaning that the loop is still running when it is
    used up. *)
Fixpoint race_loop (fuel : nat) (now : clock) (start ta tb : Z)
    (k : nat) (m : markers) : option markers :=
  if pending m then
    match fuel with
    | O => None
    | S fuel' =>
        let current := Mach.sub64 (now (S k)) start in
        let m' := poll ta tb current m in
        if current >? timeout then Some m'
        else race_loop fuel' now start ta tb (S k) m'
    end
  else Some m.

(** ** Decision extraction *)

Record TSU_Result : Type :=
  Result { winner : Z; latency : Z; delta : Z }.

Definition extract (m : markers) : TSU_Result :=
  let w := if arrival_a m <=? arrival_b m then 0 else 1 in
  Result w
    (if w =? 0 then arrival_a m else arrival_b m)
    (if arrival_a m >? arrival_b m
     then Mach.to_u32 (arrival_a m - arrival_b m)
     else Mach.to_u32 (arrival_b m - arrival_a m)).

(** The markers held when the loop is left. *)
Definition race_exit (fuel : nat) (undef : Z) (bias : F32.float)
    (cycle_count : Z) (now : clock) : option markers :=
  let target_a := target_a undef bias cycle_count in
  let target_b := target_b undef bias in
  let start := now O in
  race_loop fuel now start target_a target_b O no_arrival.

Definition run_symmetric_race (fuel : nat) (undef : Z) (bias : F32.float)
    (cycle_count : Z) (now : clock) : option TSU_Result :=
  match race_exit fuel undef bias cycle_count now with
  | Some m => Some (extract m)
  | None => None
  end.

(** ** Reading the loop as a trace

    [elapsed now k] is the value of [current] in the iteration that makes
    poll number [k] (the first poll is number 0); [trace] lists the markers
    after each poll, and [stops] says whether the loop is left after poll
    [k]: by the [break], or because the loop condition has become false. *)

Definition elapsed (now : clock) (k : nat) : Z :=
  Mach.sub64 (now (S k)) (now O).

Fixpoint trace (now : clock) (ta tb : Z) (k : nat) : markers :=
  match k with
  | O => no_arrival
  | S k' => poll ta tb (elapsed now k') (trace now ta tb k')
  end.

Definition stops (now : clock) (ta tb : Z) (k : nat) : bool :=
  (elapsed now k >? timeout) || negb (pending (trace now ta tb (S k))).

(** The loop is left after poll [n], and not before. *)
Definition exits_at (now : clock) (ta tb : Z) (n : nat) : Prop :=
  stops now ta tb n = true /\
  forall j, (j < n)%nat -> stops now ta tb j = false.

(** A clock as [esp_timer_get_time] provides it: microseconds since boot,
    never decreasing, within [int64_t]. *)
Definition monotonic (now : clock) : Prop :=
  0 <= now O /\ forall n, now n <= now (S n) < 2 ^ 63.

(** ** The thresholds in the words of the specification

    The specification describes the thresholds with the product rounded
    to the nearest integer.  [round_nearest] and the two [spec_target]
    functions follow that description; they are compared with the code's
    [target_a] and [target_b] below. *)

(** The integer nearest to a finite float (halves away from zero). *)
Definition round_nearest (f : F32.float) : option Z :=
  match f with
  | S754_zero _ => Some 0
  | S754_finite s m e =>
      Some (cond_Zopp s ((2 * F32.num false m e + F32.den e) / (2 * F32.den e)))
  | S754_infinity _ => None
  | S754_nan => None
  end.

Definition spec_target_a (bias : F32.float) (jitter : Z) : option Z :=
  match round_nearest (F32.mul bias (F32.of_int bias_scale)) with
  | Some r => Some (baseline - r + jitter)
  | None => None
  end.

Definition spec_target_b (bias : F32.float) : option Z :=
  match round_nearest (F32.mul bias (F32.of_int bias_scale)) with
  | Some r => Some (baseline + r)
  | None => None
  end.

(** ** Sample inputs *)

(** The floats 0.5, 2.5, -2.0 and 2^-9 = 0.001953125. *)
Definition bias_0_5 : F32.float := S754_finite false 8388608 (-24).
Definition bias_2_5 : F32.float := S754_finite false 10485760 (-22).
Definition bias_neg_2 : F32.float := S754_finite true 8388608 (-22).
Definition bias_2_pow_m9 : F32.float := S754_finite false 8388608 (-32).

(** The float 0.0. *)
Definition bias_0 : F32.float := S754_zero false.

(** A clock started at [epoch] that advances by [step] between two calls. *)
Definition ticking (epoch step : Z) : clock :=
  fun n => epoch + step * Z.of_nat n.

(** The clock [c] frozen once it has reached [cap]. *)
Definition capped (c : clock) (cap : Z) : clock :=
  fun n => Z.min (c n) cap.

(** A clock that returns the values of a list in turn, and goes on from
    [next] in steps of 1 once the list is used up. *)
Fixpoint scripted (l : list Z) (next : Z) (n : nat) : Z :=
  match l, n with
  | nil, _ => next + Z.of_nat n
  | cons x _, O => x
  | cons _ l', S n' => scripted l' next n'
  end.

(** ** The driver [app_main]

    [app_main] starts the noise task, prints a header line, runs the race
    100 times for each of five biases, printing one record per race, and
    prints a last line.  The noise task shares no data with the race; it
    only perturbs the clock readings, which are inputs of the model.  The
    model keeps, for each [printf], the values that are printed. *)

(** More floats: negation, division, and the literals 0.25, 0.75 and 0.95
    (the binary32 nearest to 95/100). *)
Definition f32_opp (x : F32.float) : F32.float := SFopp x.
Definition f32_div (x y : F32.float) : F32.float := SFdiv F32.prec F32.emax x y.

Definition bias_0_25 : F32.float := S754_finite false 8388608 (-25).
Definition bias_0_75 : F32.float := S754_finite false 12582912 (-24).
Definition bias_0_95 : F32.float := S754_finite false 15938355 (-24).

(** [float test_biases[] = {0.0f, 0.25f, 0.5f, 0.75f, 0.95f};] *)
Definition test_biases : list F32.float :=
  bias_0 :: bias_0_25 :: bias_0_5 :: bias_0_75 :: bias_0_95 :: nil.

(** [float confidence = 1000.0f / (float)res.latency;] *)
Definition confidence (res : TSU_Result) : F32.float :=
  f32_div (F32.of_int 1000) (F32.of_int (latency res)).

(** What is printed: the header, one record per race with the five values
    given to [printf], and the line DONE. *)
Inductive line : Type :=
| Header
| Row (bias : F32.float) (winner latency delta : Z) (confidence : F32.float)
| Done.

(** What a call of [run_symmetric_race] finds: [env c] is the cycle count
    sampled by call number [c] and the clock readings it gets. *)
Definition environment : Type := nat -> Z * clock.

(** The inner loop [for (int i = 0; i < 100; i++)], here for [count]
    iterations, the first of which makes call number [c]. *)
Fixpoint repeat_race (fuel : nat) (undef : Z) (env : environment)
    (current_bias : F32.float) (c count : nat) : option (list line) :=
  match count with
  | O => Some nil
  | S count' =>
      match run_symmetric_race fuel undef current_bias
              (fst (env c)) (snd (env c)) with
      | None => None
      | Some res =>
          match repeat_race fuel undef env current_bias (S c) count' with
          | None => None
          | Some rest =>
              Some (Row current_bias (winner res) (latency res) (delta res)
                        (confidence res) :: rest)
          end
      end
  end.

(** The outer loop [for (int b = 0; b < 5; b++)] over the biases. *)
Fixpoint sweep (fuel : nat) (undef : Z) (env : environment)
    (biases : list F32.float) (c : nat) : option (list line) :=
  match biases with
  | nil => Some nil
  | cons current_bias rest =>
      match repeat_race fuel undef env current_bias c 100 with
      | None => None
      | Some rows =>
          match sweep fuel undef env rest (c + 100) with
          | None => None
          | Some more => Some (rows ++ more)
          end
      end
  end.

(** [None] when some race is still running with the fuel used up. *)
Definition app_main (fuel : nat) (undef : Z) (env : environment)
    : option (list line) :=
  match sweep fuel undef env test_biases O with
  | None => None
  | Some rows => Some (Header :: rows ++ Done :: nil)
  end.

(** An environment for examples: call [c] samples the cycle count [c] and
    gets a clock that advances by 100 and is frozen at 1000000. *)
Definition sample_env : environment :=
  fun c => (Z.of_nat c, capped (ticking 77 100) 1000000).

(** Markers are [uint32_t] values. *)
Definition in_range (m : markers) : Prop :=
  0 <= arrival_a m < 2 ^ 32 /\ 0 <= arrival_b m < 2 ^ 32.

(** * Properties *)

(** ** Machine integers *)
Module MachFacts.
Import Mach.

Lemma to_u32_range z : 0 <= to_u32 z < 2 ^ 32.
Proof. unfold to_u32. apply Z.mod_pos_bound. lia. Qed.

Lemma to_u32_small z : 0 <= z < 2 ^ 32 -> to_u32 z = z.
Proof. intros H. unfold to_u32. now apply Z.mod_small. Qed.

Lemma to_u32_le z : 0 <= z -> to_u32 z <= z.
Proof. intros H. unfold to_u32. apply Z.mod_le; lia. Qed.

Lemma to_u32_nonzero z : to_u32 z <> 0 -> z <> 0.
Proof. intros H E. subst z. now apply H. Qed.

Lemma to_u32_to_int z : to_u32 (to_int z) = to_u32 z.
Proof.
  unfold to_u32, to_int.
  rewrite <- Zminus_mod_idemp_l, Z.mod_mod by lia.
  rewrite Zminus_mod_idemp_l. f_equal. lia.
Qed.

Lemma to_u32_add_l x y : to_u32 (to_u32 x + y) = to_u32 (x + y).
Proof. unfold to_u32. now rewrite Zplus_mod_idemp_l. Qed.

Lemma to_i64_small z : - 2 ^ 63 <= z < 2 ^ 63 -> to_i64 z = z.
Proof.
  intros H. unfold to_i64. rewrite Z.mod_small; lia.
Qed.

Lemma sub64_small x y : - 2 ^ 63 <= x - y < 2 ^ 63 -> sub64 x y = x - y.
Proof. apply to_i64_small. Qed.

Lemma in_int_spec z : in_int z = true <-> - 2 ^ 31 <= z <= 2 ^ 31 - 1.
Proof.
  unfold in_int, INT_MIN, INT_MAX.
  rewrite andb_true_iff, !Z.leb_le. tauto.
Qed.

End MachFacts.

(** ** One poll *)
Section Poll.
Variables ta tb : Z.

Lemma in_range_no_arrival : in_range no_arrival.
Proof. unfold in_range; simpl; lia. Qed.

Lemma poll_in_range c m : in_range m -> in_range (poll ta tb c m).
Proof.
  intros [Ha Hb]. unfold in_range, poll; simpl.
  pose proof (MachFacts.to_u32_range c).
  split.
  - destruct ((arrival_a m =? 0) && (c >=? ta)); lia.
  - destruct ((arrival_b m =? 0) && (c >=? tb)); lia.
Qed.

(** A marker that is set is left alone. *)
Lemma poll_keeps_a c m : arrival_a m <> 0 -> arrival_a (poll ta tb c m) = arrival_a m.
Proof.
  intros H. unfold poll; simpl.
  apply Z.eqb_neq in H. now rewrite H.
Qed.

Lemma poll_keeps_b c m : arrival_b m <> 0 -> arrival_b (poll ta tb c m) = arrival_b m.
Proof.
  intros H. unfold poll; simpl.
  apply Z.eqb_neq in H. now rewrite H.
Qed.

(** A marker that is clear takes the reading when the threshold is met. *)
Lemma poll_sets_a c m :
  arrival_a m = 0 -> ta <= c -> arrival_a (poll ta tb c m) = Mach.to_u32 c.
Proof.
  intros H Hc. unfold poll; simpl. rewrite H.
  replace (c >=? ta) with true; [reflexivity|].
  symmetry. rewrite Z.geb_le. exact Hc.
Qed.

Lemma poll_sets_b c m :
  arrival_b m = 0 -> tb <= c -> arrival_b (poll ta tb c m) = Mach.to_u32 c.
Proof.
  intros H Hc. unfold poll; simpl. rewrite H.
  replace (c >=? tb) with true; [reflexivity|].
  symmetry. rewrite Z.geb_le. exact Hc.
Qed.

Lemma poll_skips_a c m :
  arrival_a m = 0 -> c < ta -> arrival_a (poll ta tb c m) = 0.
Proof.
  intros H Hc. unfold poll; simpl. rewrite H.
  replace (c >=? ta) with false; [reflexivity|].
  symmetry. apply not_true_is_false. rewrite Z.geb_le. lia.
Qed.

Lemma poll_skips_b c m :
  arrival_b m = 0 -> c < tb -> arrival_b (poll ta tb c m) = 0.
Proof.
  intros H Hc. unfold poll; simpl. rewrite H.
  replace (c >=? tb) with false; [reflexivity|].
  symmetry. apply not_true_is_false. rewrite Z.geb_le. lia.
Qed.

(** What a poll can write into a marker. *)
Lemma poll_a_cases c m :
  arrival_a (poll ta tb c m) = arrival_a m \/
  (arrival_a m = 0 /\ ta <= c /\ arrival_a (poll ta tb c m) = Mach.to_u32 c).
Proof.
  unfold poll; simpl.
  destruct (arrival_a m =? 0) eqn:E; simpl; [|now left].
  destruct (c >=? ta) eqn:G; [|now left].
  right. apply Z.eqb_eq in E. rewrite Z.geb_le in G. auto.
Qed.

Lemma poll_b_cases c m :
  arrival_b (poll ta tb c m) = arrival_b m \/
  (arrival_b m = 0 /\ tb <= c /\ arrival_b (poll ta tb c m) = Mach.to_u32 c).
Proof.
  unfold poll; simpl.
  destruct (arrival_b m =? 0) eqn:E; simpl; [|now left].
  destruct (c >=? tb) eqn:G; [|now left].
  right. apply Z.eqb_eq in E. rewrite Z.geb_le in G. auto.
Qed.

End Poll.

(** ** The trace of the markers *)
Section Trace.
Variable now : clock.
Variables ta tb : Z.

Local Abbreviation tr := (trace now ta tb).

Lemma trace_in_range k : in_range (tr k).
Proof.
  induction k as [|k IH]; simpl.
  - apply in_range_no_arrival.
  - now apply poll_in_range.
Qed.

Lemma trace_keeps_a k j :
  arrival_a (tr k) <> 0 -> arrival_a (tr (k + j)) = arrival_a (tr k).
Proof.
  intros H. induction j as [|j IH].
  - now rewrite Nat.add_0_r.
  - rewrite Nat.add_succ_r. cbn [trace]. rewrite poll_keeps_a; congruence.
Qed.

Lemma trace_keeps_b k j :
  arrival_b (tr k) <> 0 -> arrival_b (tr (k + j)) = arrival_b (tr k).
Proof.
  intros H. induction j as [|j IH].
  - now rewrite Nat.add_0_r.
  - rewrite Nat.add_succ_r. cbn [trace]. rewrite poll_keeps_b; congruence.
Qed.

(** A marker that is set holds the reading of an earlier poll at which its
    threshold was met, and that poll found the marker clear. *)
Lemma trace_a_origin k :
  arrival_a (tr k) <> 0 ->
  exists i, (i < k)%nat /\ arrival_a (tr i) = 0 /\ ta <= elapsed now i /\
            arrival_a (tr k) = Mach.to_u32 (elapsed now i).
Proof.
  induction k as [|k IH]; cbn [trace]; intros H.
  - now elim H.
  - destruct (poll_a_cases ta tb (elapsed now k) (tr k)) as [E|(E0 & Ec & E)].
    + rewrite E in H |- *. destruct (IH H) as (i & Hi & R).
      exists i. split; [lia | exact R].
    + exists k. split; [lia | now rewrite E].
Qed.

Lemma trace_b_origin k :
  arrival_b (tr k) <> 0 ->
  exists i, (i < k)%nat /\ arrival_b (tr i) = 0 /\ tb <= elapsed now i /\
            arrival_b (tr k) = Mach.to_u32 (elapsed now i).
Proof.
  induction k as [|k IH]; cbn [trace]; intros H.
  - now elim H.
  - destruct (poll_b_cases ta tb (elapsed now k) (tr k)) as [E|(E0 & Ec & E)].
    + rewrite E in H |- *. destruct (IH H) as (i & Hi & R).
      exists i. split; [lia | exact R].
    + exists k. split; [lia | now rewrite E].
Qed.

(** A marker stays clear as long as the readings stay below its threshold. *)
Lemma trace_a_clear k :
  (forall i, (i < k)%nat -> elapsed now i < ta) -> arrival_a (tr k) = 0.
Proof.
  induction k as [|k IH]; cbn [trace]; intros H; [reflexivity|].
  apply poll_skips_a; [apply IH; intros; apply H; lia | apply H; lia].
Qed.

Lemma trace_b_clear k :
  (forall i, (i < k)%nat -> elapsed now i < tb) -> arrival_b (tr k) = 0.
Proof.
  induction k as [|k IH]; cbn [trace]; intros H; [reflexivity|].
  apply poll_skips_b; [apply IH; intros; apply H; lia | apply H; lia].
Qed.

(** *** The loop follows the trace *)

Lemma stops_false k :
  stops now ta tb k = false ->
  elapsed now k <= timeout /\ pending (tr (S k)) = true.
Proof.
  unfold stops. intros H. apply orb_false_elim in H as [H1 H2].
  split.
  - destruct (Z.gtb_spec (elapsed now k) timeout); [discriminate | lia].
  - now apply negb_false_iff in H2.
Qed.

Lemma race_loop_sound fuel : forall k r,
  pending (tr k) = true ->
  race_loop fuel now (now O) ta tb k (tr k) = Some r ->
  exists n, (k <= n < k + fuel)%nat /\ stops now ta tb n = true /\
            (forall j, (k <= j < n)%nat -> stops now ta tb j = false) /\
            r = tr (S n).
Proof.
  induction fuel as [|fuel IH]; intros k r P; simpl; rewrite P.
  - discriminate.
  - fold (elapsed now k). change (poll ta tb (elapsed now k) (tr k)) with (tr (S k)).
    destruct (elapsed now k >? timeout) eqn:T.
    + intros [= <-]. exists k. repeat split; try lia.
      unfold stops. now rewrite T.
    + destruct (pending (tr (S k))) eqn:P'.
      * intros H. destruct (IH _ _ P' H) as (n & Hn & Sn & Bn & ->).
        exists n. repeat split; try lia; [exact Sn|].
        intros j Hj. destruct (Nat.eq_dec j k) as [->|Hne].
        -- unfold stops. now rewrite T, P'.
        -- apply Bn. lia.
      * destruct fuel; cbn [race_loop]; rewrite P'; intros [= <-];
          (exists k; repeat split; try lia;
           unfold stops; now rewrite P', orb_true_r).
Qed.

Lemma race_loop_complete fuel : forall k n,
  pending (tr k) = true ->
  (k <= n < k + fuel)%nat ->
  stops now ta tb n = true ->
  (forall j, (k <= j < n)%nat -> stops now ta tb j = false) ->
  race_loop fuel now (now O) ta tb k (tr k) = Some (tr (S n)).
Proof.
  induction fuel as [|fuel IH]; intros k n P Hn Sn Bn; [lia|].
  simpl. rewrite P. fold (elapsed now k).
  change (poll ta tb (elapsed now k) (tr k)) with (tr (S k)).
  destruct (Nat.eq_dec n k) as [->|Hne].
  - unfold stops in Sn. destruct (elapsed now k >? timeout); [reflexivity|].
    rewrite orb_false_l in Sn. apply negb_true_iff in Sn.
    destruct fuel; cbn [race_loop]; now rewrite Sn.
  - assert (Sk : stops now ta tb k = false) by (apply Bn; lia).
    apply stops_false in Sk as [T P'].
    destruct (Z.gtb_spec (elapsed now k) timeout); [lia|].
    apply IH; auto; try lia. intros j Hj. apply Bn. lia.
Qed.

(** The loop returns exactly when it is left after some poll within the
    fuel, and then with the markers of the trace after that poll. *)
Lemma race_loop_spec fuel r :
  race_loop fuel now (now O) ta tb O no_arrival = Some r <->
  exists n, (n < fuel)%nat /\ exits_at now ta tb n /\ r = tr (S n).
Proof.
  split.
  - intros H. apply (race_loop_sound fuel O r eq_refl) in H.
    destruct H as (n & Hn & Sn & Bn & ->).
    exists n. split; [lia|]. split; [|reflexivity].
    split; [exact Sn|]. intros j Hj. apply Bn. lia.
  - intros (n & Hn & [Sn Bn] & ->).
    apply (race_loop_complete fuel O n eq_refl); auto; try lia.
    intros j Hj. apply Bn. lia.
Qed.

(** The poll after which the loop is left is unique. *)
Lemma exits_at_unique n n' :
  exits_at now ta tb n -> exits_at now ta tb n' -> n = n'.
Proof.
  intros [S1 B1] [S2 B2].
  destruct (Nat.lt_trichotomy n n') as [L|[E|L]]; [|exact E|].
  - rewrite (B2 n L) in S1. discriminate.
  - rewrite (B1 n' L) in S2. discriminate.
Qed.

(** If some poll would stop the loop, there is a first one. *)
Lemma first_stop n :
  stops now ta tb n = true ->
  exists n0, (n0 <= n)%nat /\ exits_at now ta tb n0.
Proof.
  induction n as [n IH] using lt_wf_ind. intros Sn.
  destruct (Nat.eq_dec n O) as [->|Hn].
  - exists O. split; [lia|]. split; [exact Sn|]. intros j Hj. lia.
  - assert (D : (exists j, (j < n)%nat /\ stops now ta tb j = true) \/
                (forall j, (j < n)%nat -> stops now ta tb j = false)).
    { clear IH Sn Hn. induction n as [|n IHn].
      - right. intros j Hj. lia.
      - destruct IHn as [(j & Hj & Sj)|B].
        + left. exists j. split; [lia | exact Sj].
        + destruct (stops now ta tb n) eqn:E.
          * left. exists n. split; [lia | exact E].
          * right. intros j Hj. destruct (Nat.eq_dec j n) as [->|Hne];
              [exact E | apply B; lia]. }
    destruct D as [(j & Hj & Sj)|B].
    + destruct (IH j Hj Sj) as (n0 & Hn0 & E). exists n0. split; [lia | exact E].
    + exists n. split; [lia|]. split; assumption.
Qed.

End Trace.

(** ** Thresholds *)
Section Thresholds.

Lemma cpu_jitter_range cc : 0 <= cpu_jitter cc <= 4.
Proof.
  unfold cpu_jitter.
  pose proof (Z.mod_pos_bound (Mach.to_u32 cc) 5). lia.
Qed.

(** The jitter is the only thing the thresholds take from the cycle count. *)
Lemma target_a_jitter undef bias cc cc' :
  cpu_jitter cc = cpu_jitter cc' ->
  target_a undef bias cc = target_a undef bias cc'.
Proof. intros H. unfold target_a. now rewrite H. Qed.

(** The shifts of [F32.trunc] compute the quotient, rounded toward zero,
    of the value [num / den] of the float. *)
Lemma trunc_finite s m e :
  F32.trunc (S754_finite s m e) = Some (Z.quot (F32.num s m e) (F32.den e)).
Proof.
  unfold F32.trunc, F32.num, F32.den. f_equal.
  assert (P : 0 < Z.pos m) by lia.
  destruct (Z.le_gt_cases 0 e) as [He|He].
  - rewrite Z.max_l, Z.max_r by lia. simpl (2 ^ 0).
    rewrite Z.quot_1_r, Z.shiftl_mul_pow2 by lia. reflexivity.
  - rewrite Z.max_r, Z.max_l by lia. simpl (2 ^ 0). rewrite Z.mul_1_r.
    replace e with (- (- e)) at 1 by lia.
    rewrite Z.shiftl_opp_r, Z.shiftr_div_pow2 by lia.
    assert (Q : 0 < 2 ^ (- e)) by (apply Z.pow_pos_nonneg; lia).
    destruct s; unfold cond_Zopp.
    + rewrite Z.quot_opp_l by lia. f_equal.
      symmetry. apply Z.quot_div_nonneg; lia.
    + symmetry. apply Z.quot_div_nonneg; lia.
Qed.

Lemma to_int_in_int f d : F32.to_int f = Some d -> - 2 ^ 31 <= d <= 2 ^ 31 - 1.
Proof.
  unfold F32.to_int. destruct (F32.trunc f) as [t|]; [|discriminate].
  destruct (Mach.in_int t) eqn:E; [|discriminate].
  intros [= <-]. now apply MachFacts.in_int_spec.
Qed.

Lemma to_int_trunc f d : F32.to_int f = Some d -> F32.trunc f = Some d.
Proof.
  unfold F32.to_int. destruct (F32.trunc f) as [t|]; [|discriminate].
  destruct (Mach.in_int t); [|discriminate]. now intros [= <-].
Qed.

(** The sample biases are binary32 floats, and so is the constant 500. *)
Lemma samples_well_formed :
  F32.well_formed bias_0_5 = true /\
  F32.well_formed bias_2_5 = true /\
  F32.well_formed bias_neg_2 = true /\
  F32.well_formed bias_2_pow_m9 = true /\
  F32.well_formed (F32.of_int bias_scale) = true.
Proof. vm_compute. repeat split. Qed.

Lemma drift_defined undef bias d :
  F32.to_int (F32.mul bias (F32.of_int bias_scale)) = Some d ->
  drift undef bias = d.
Proof. intros H. unfold drift. now rewrite H. Qed.

Lemma drift_in_int undef bias : - 2 ^ 31 <= drift undef bias <= 2 ^ 31 - 1.
Proof.
  unfold drift.
  destruct (F32.to_int (F32.mul bias (F32.of_int bias_scale))) as [d|] eqn:E.
  - now apply to_int_in_int in E.
  - unfold Mach.to_int.
    pose proof (Z.mod_pos_bound (undef + 2 ^ 31) (2 ^ 32)). lia.
Qed.

Lemma target_a_value undef bias cc :
  target_a undef bias cc =
  (baseline - drift undef bias + cpu_jitter cc) mod 2 ^ 32.
Proof.
  unfold target_a.
  rewrite MachFacts.to_u32_add_l.
  unfold Mach.to_u32 at 1.
  rewrite <- Zplus_mod_idemp_l.
  fold (Mach.to_u32 (Mach.to_int (baseline - drift undef bias))).
  rewrite MachFacts.to_u32_to_int. unfold Mach.to_u32.
  now rewrite Zplus_mod_idemp_l.
Qed.

Lemma target_b_value undef bias :
  target_b undef bias = (baseline + drift undef bias) mod 2 ^ 32.
Proof. unfold target_b. now rewrite MachFacts.to_u32_to_int. Qed.

Lemma target_a_range undef bias cc : 0 <= target_a undef bias cc < 2 ^ 32.
Proof. apply MachFacts.to_u32_range. Qed.

Lemma target_b_range undef bias : 0 <= target_b undef bias < 2 ^ 32.
Proof. apply MachFacts.to_u32_range. Qed.

End Thresholds.

(** ** The whole function *)
Section Run.

Lemma race_exit_spec fuel undef bias cc now m :
  race_exit fuel undef bias cc now = Some m <->
  exists n,
    (n < fuel)%nat /\
    exits_at now (target_a undef bias cc) (target_b undef bias) n /\
    m = trace now (target_a undef bias cc) (target_b undef bias) (S n).
Proof. unfold race_exit. apply race_loop_spec. Qed.

Lemma run_spec fuel undef bias cc now r :
  run_symmetric_race fuel undef bias cc now = Some r <->
  exists m, race_exit fuel undef bias cc now = Some m /\ r = extract m.
Proof.
  unfold run_symmetric_race. split.
  - destruct (race_exit fuel undef bias cc now) as [m|]; [|discriminate].
    intros [= <-]. eauto.
  - intros (m & -> & ->). reflexivity.
Qed.

Lemma race_exit_in_range fuel undef bias cc now m :
  race_exit fuel undef bias cc now = Some m -> in_range m.
Proof.
  intros H. apply race_exit_spec in H as (n & _ & _ & ->).
  apply trace_in_range.
Qed.

(** More fuel does not change what the loop returns. *)
Lemma race_exit_fuel fuel fuel' undef bias cc now m :
  race_exit fuel undef bias cc now = Some m -> (fuel <= fuel')%nat ->
  race_exit fuel' undef bias cc now = Some m.
Proof.
  intros H L. apply race_exit_spec in H as (n & Hn & E & ->).
  apply race_exit_spec. exists n. repeat split; try apply E. lia.
Qed.

(** [extract] on [uint32_t] markers. *)
Lemma extract_value m :
  in_range m ->
  winner (extract m) = (if arrival_a m <=? arrival_b m then 0 else 1) /\
  latency (extract m) = Z.min (arrival_a m) (arrival_b m) /\
  delta (extract m) = Z.abs (arrival_a m - arrival_b m).
Proof.
  intros [Ha Hb]. unfold extract; simpl. split; [reflexivity|]. split.
  - destruct (Z.leb_spec (arrival_a m) (arrival_b m)); simpl; lia.
  - destruct (Z.gtb_spec (arrival_a m) (arrival_b m));
      rewrite MachFacts.to_u32_small; lia.
Qed.

End Run.

(** * The claims *)

(** C1.  When the race loop of [run_symmetric_race] is left, whatever the
    bias, the cycle count and the clock, the latency returned is the
    minimum of the two arrival markers held at that point and the delta
    returned is the absolute value of their difference.  Nothing is
    assumed about how the loop was left: markers still at the sentinel 0
    after a timeout are covered. *)
Theorem latency_is_min_and_delta_is_abs fuel undef bias cc now r :
  run_symmetric_race fuel undef bias cc now = Some r ->
  exists m,
    race_exit fuel undef bias cc now = Some m /\
    latency r = Z.min (arrival_a m) (arrival_b m) /\
    delta r = Z.abs (arrival_a m - arrival_b m).
Proof.
  intros H. apply run_spec in H as (m & Hm & ->).
  exists m. split; [exact Hm|].
  apply race_exit_in_range in Hm. now apply extract_value.
Qed.

(** A run that times out with path A still at the sentinel: bias 2.5,
    clock advancing by 100. *)
Lemma latency_is_min_and_delta_is_abs_witness :
  exists m,
    race_exit 60 0 bias_2_5 0 (ticking 123456 100) = Some m /\
    latency (Result 0 0 2300) = Z.min (arrival_a m) (arrival_b m) /\
    delta (Result 0 0 2300) = Z.abs (arrival_a m - arrival_b m).
Proof.
  apply (latency_is_min_and_delta_is_abs 60 0 bias_2_5 0 (ticking 123456 100)).
  vm_compute. reflexivity.
Defined.

(** The loop is left at the latest after the first poll that reads more
    than [timeout]. *)
Lemma race_returns undef bias cc now n :
  timeout < elapsed now n ->
  exists n0,
    (n0 <= n)%nat /\
    exits_at now (target_a undef bias cc) (target_b undef bias) n0 /\
    forall fuel, (n0 < fuel)%nat ->
      race_exit fuel undef bias cc now =
      Some (trace now (target_a undef bias cc) (target_b undef bias) (S n0)).
Proof.
  intros T.
  assert (Sn : stops now (target_a undef bias cc) (target_b undef bias) n = true).
  { unfold stops. destruct (Z.gtb_spec (elapsed now n) timeout); [reflexivity|lia]. }
  destruct (first_stop _ _ _ _ Sn) as (n0 & Hn0 & E).
  exists n0. repeat split; try apply E; auto.
  intros fuel Hf. apply race_exit_spec. exists n0. auto.
Qed.

(** C2 (as stated, refuted).  Bias 2.5 makes the formula of [target_a]
    negative: 1000 - 1250 + 0 = -250.  The threshold is a [uint32_t], so
    what is compared with the clock is 4294967046.  With a clock advancing
    by 100 the first poll reads 100 and leaves [arrival_a] at 0; path A is
    never crossed and the loop is left by the timeout. *)
Lemma negative_threshold_is_not_crossed :
  drift 0 bias_2_5 = 1250 /\
  baseline - 1250 + cpu_jitter 0 = -250 /\
  target_a 0 bias_2_5 0 = 4294967046 /\
  target_b 0 bias_2_5 = 2250 /\
  elapsed (ticking 123456 100) 0 = 100 /\
  arrival_a (trace (ticking 123456 100) 4294967046 2250 1) = 0 /\
  arrival_a (trace (ticking 123456 100) 4294967046 2250 1)
    <> elapsed (ticking 123456 100) 0 /\
  race_exit 60 0 bias_2_5 0 (ticking 123456 100) = Some (Markers 0 2300).
Proof. vm_compute. repeat split; discriminate. Qed.

(** C2 (amended).  A threshold whose formula evaluates to exactly 0 is
    crossed on the first poll: the marker takes the first reading (a
    non-negative reading, reduced modulo 2^32 by the cast).  A threshold
    whose formula evaluates to a negative number is stored as that number
    plus 2^32, which is more than 2^31, and its path is not crossed as long
    as the readings stay below the stored value.  In either case the
    function returns a result as soon as a reading exceeds the timeout. *)
Theorem nonpositive_thresholds undef bias cc now :
  (baseline - drift undef bias + cpu_jitter cc = 0 ->
   0 <= elapsed now O ->
   arrival_a (trace now (target_a undef bias cc) (target_b undef bias) 1)
   = Mach.to_u32 (elapsed now O)) /\
  (baseline + drift undef bias = 0 ->
   0 <= elapsed now O ->
   arrival_b (trace now (target_a undef bias cc) (target_b undef bias) 1)
   = Mach.to_u32 (elapsed now O)) /\
  (baseline - drift undef bias + cpu_jitter cc < 0 ->
   target_a undef bias cc
   = baseline - drift undef bias + cpu_jitter cc + 2 ^ 32 /\
   2 ^ 31 < target_a undef bias cc /\
   forall k, (forall i, (i < k)%nat -> elapsed now i < target_a undef bias cc) ->
     arrival_a (trace now (target_a undef bias cc) (target_b undef bias) k) = 0) /\
  (baseline + drift undef bias < 0 ->
   target_b undef bias = baseline + drift undef bias + 2 ^ 32 /\
   2 ^ 31 < target_b undef bias /\
   forall k, (forall i, (i < k)%nat -> elapsed now i < target_b undef bias) ->
     arrival_b (trace now (target_a undef bias cc) (target_b undef bias) k) = 0) /\
  (forall n, timeout < elapsed now n ->
   exists fuel r, run_symmetric_race fuel undef bias cc now = Some r).
Proof.
  pose proof (drift_in_int undef bias) as D.
  pose proof (cpu_jitter_range cc) as J.
  unfold baseline in *.
  repeat split.
  - intros Z0 E. cbn [trace]. apply poll_sets_a; [reflexivity|].
    rewrite target_a_value. unfold baseline. rewrite Z0. exact E.
  - intros Z0 E. cbn [trace]. apply poll_sets_b; [reflexivity|].
    rewrite target_b_value. unfold baseline. rewrite Z0. exact E.
  - rewrite target_a_value. unfold baseline.
    rewrite <- (Z.mod_add _ 1) by lia. apply Z.mod_small. lia.
  - rewrite target_a_value. unfold baseline.
    rewrite <- (Z.mod_add _ 1) by lia. rewrite Z.mod_small; lia.
  - intros k Hk. now apply trace_a_clear.
  - rewrite target_b_value. unfold baseline.
    rewrite <- (Z.mod_add _ 1) by lia. apply Z.mod_small. lia.
  - rewrite target_b_value. unfold baseline.
    rewrite <- (Z.mod_add _ 1) by lia. rewrite Z.mod_small; lia.
  - intros k Hk. now apply trace_b_clear.
  - intros n T. destruct (race_returns undef bias cc now n T) as (n0 & _ & _ & R).
    exists (S n0). eexists. unfold run_symmetric_race. rewrite R by lia.
    reflexivity.
Qed.

(** Bias -2.0 makes the formula of [target_b] exactly 0; with a clock
    advancing by 7 path B arrives at 7, on the first poll. *)
Lemma nonpositive_thresholds_witness :
  arrival_b (trace (ticking 0 7) (target_a 0 bias_neg_2 0) (target_b 0 bias_neg_2) 1)
  = Mach.to_u32 (elapsed (ticking 0 7) O) /\
  Mach.to_u32 (elapsed (ticking 0 7) O) = 7.
Proof.
  split.
  - apply (nonpositive_thresholds 0 bias_neg_2 0 (ticking 0 7)).
    + vm_compute. reflexivity.
    + vm_compute. discriminate.
  - vm_compute. reflexivity.
Defined.

(** C3 (as stated, refuted).  For the bias 2^-9 the product with 500 is
    0.9765625 = 16384000 * 2^-24.  Rounded to the nearest integer it is 1,
    which would give the thresholds 999 and 1001; the code converts it
    with [(int)], which gives 0, and both thresholds are 1000. *)
Lemma thresholds_are_not_rounded :
  F32.mul bias_2_pow_m9 (F32.of_int bias_scale) = S754_finite false 16384000 (-24) /\
  spec_target_a bias_2_pow_m9 (cpu_jitter 0) = Some 999 /\
  target_a 0 bias_2_pow_m9 0 = 1000 /\
  spec_target_b bias_2_pow_m9 = Some 1001 /\
  target_b 0 bias_2_pow_m9 = 1000.
Proof. vm_compute. repeat split. Qed.

(** C3 (amended).  Whenever [(int)(bias * 500)] is defined, its value [d]
    is the single precision product truncated toward zero (the quotient,
    rounded toward zero, of the numerator of the product by its
    denominator); with the jitter being the cycle count modulo 5, between
    0 and 4, the thresholds are [1000 - d + jitter] and [1000 + d] as
    unsigned 32-bit numbers, that is modulo 2^32. *)
Theorem thresholds_truncate undef bias cc d :
  F32.to_int (F32.mul bias (F32.of_int bias_scale)) = Some d ->
  match F32.mul bias (F32.of_int bias_scale) with
  | S754_finite s m e => d = Z.quot (F32.num s m e) (F32.den e)
  | S754_zero _ => d = 0
  | S754_infinity _ => False
  | S754_nan => False
  end /\
  0 <= cpu_jitter cc <= 4 /\
  target_a undef bias cc = (baseline - d + cpu_jitter cc) mod 2 ^ 32 /\
  target_b undef bias = (baseline + d) mod 2 ^ 32.
Proof.
  intros H. split; [|split; [apply cpu_jitter_range|]].
  - apply to_int_trunc in H.
    destruct (F32.mul bias (F32.of_int bias_scale)) as [s|s| |s m e].
    + simpl in H. congruence.
    + discriminate.
    + discriminate.
    + rewrite trunc_finite in H. congruence.
  - rewrite target_a_value, target_b_value.
    now rewrite (drift_defined undef bias d H).
Qed.

Lemma thresholds_truncate_witness :
  match F32.mul bias_0_5 (F32.of_int bias_scale) with
  | S754_finite s m e => 250 = Z.quot (F32.num s m e) (F32.den e)
  | S754_zero _ => 250 = 0
  | S754_infinity _ => False
  | S754_nan => False
  end /\
  0 <= cpu_jitter 7 <= 4 /\
  target_a 0 bias_0_5 7 = (baseline - 250 + cpu_jitter 7) mod 2 ^ 32 /\
  target_b 0 bias_0_5 = (baseline + 250) mod 2 ^ 32.
Proof.
  apply (thresholds_truncate 0 bias_0_5 7 250). vm_compute. reflexivity.
Defined.

(** ** Helpers on ties, exits and clocks *)
Section Exits.
Variable now : clock.
Variables ta tb : Z.

Lemma pending_true m : pending m = true <-> arrival_a m = 0 \/ arrival_b m = 0.
Proof. unfold pending. now rewrite orb_true_iff, !Z.eqb_eq. Qed.

Lemma pending_false m : pending m = false <-> arrival_a m <> 0 /\ arrival_b m <> 0.
Proof. unfold pending. now rewrite orb_false_iff, !Z.eqb_neq. Qed.

Lemma stops_true k :
  stops now ta tb k = true <->
  timeout < elapsed now k \/
  (arrival_a (trace now ta tb (S k)) <> 0 /\ arrival_b (trace now ta tb (S k)) <> 0).
Proof.
  unfold stops. rewrite orb_true_iff, negb_true_iff, pending_false.
  destruct (Z.gtb_spec (elapsed now k) timeout); intuition (try lia; try discriminate).
Qed.

(** Equal thresholds keep the two markers equal. *)
Lemma trace_same_target k :
  ta = tb -> arrival_a (trace now ta tb k) = arrival_b (trace now ta tb k).
Proof.
  intros <-. induction k as [|k IH]; [reflexivity|].
  cbn [trace]. unfold poll; simpl. now rewrite IH.
Qed.

(** A loop left after poll [n] with [n > 0] was not left after poll 0. *)
Lemma exits_at_first n :
  exits_at now ta tb n -> stops now ta tb O = true -> n = O.
Proof.
  intros [_ B] S0. destruct n as [|n]; [reflexivity|].
  rewrite B in S0 by lia. discriminate.
Qed.

End Exits.

Section Clocks.
Variable now : clock.
Hypothesis mono : monotonic now.

Lemma monotonic_from_start k : now O <= now k < 2 ^ 63.
Proof.
  destruct mono as [H0 H]. induction k as [|k IH].
  - pose proof (H O). lia.
  - pose proof (H k). lia.
Qed.

Lemma monotonic_elapsed k : elapsed now k = now (S k) - now O.
Proof.
  unfold elapsed. apply MachFacts.sub64_small.
  pose proof (monotonic_from_start (S k)). destruct mono as [H0 _]. lia.
Qed.

Lemma monotonic_elapsed_nonneg k : 0 <= elapsed now k.
Proof.
  rewrite monotonic_elapsed. pose proof (monotonic_from_start (S k)). lia.
Qed.

End Clocks.

(** C4.  Whenever the two arrival markers are equal when the loop is left,
    the winner is path A (code 0).  In particular, when the first poll
    already satisfies both thresholds, both markers receive the same value
    in that iteration, they are equal when the loop is left, and the
    result is winner A with the common arrival as latency and delta 0. *)
Theorem tie_goes_to_path_A fuel undef bias cc now m r :
  race_exit fuel undef bias cc now = Some m ->
  run_symmetric_race fuel undef bias cc now = Some r ->
  (arrival_a m = arrival_b m -> winner r = 0) /\
  (target_a undef bias cc <= elapsed now O ->
   target_b undef bias <= elapsed now O ->
   trace now (target_a undef bias cc) (target_b undef bias) 1
   = Markers (Mach.to_u32 (elapsed now O)) (Mach.to_u32 (elapsed now O)) /\
   arrival_a m = arrival_b m /\
   r = Result 0 (arrival_a m) 0).
Proof.
  intros Hm Hr.
  assert (R : r = extract m).
  { apply run_spec in Hr as (m' & Hm' & ->). congruence. }
  assert (Tie : arrival_a m = arrival_b m -> r = Result 0 (arrival_a m) 0).
  { intros E. subst r. unfold extract. rewrite <- E.
    rewrite Z.leb_refl, Z.sub_diag. simpl.
    destruct (Z.gtb_spec (arrival_a m) (arrival_a m)); [lia|reflexivity]. }
  split.
  - intros E. rewrite (Tie E). reflexivity.
  - intros Ha Hb.
    set (ta := target_a undef bias cc) in *. set (tb := target_b undef bias) in *.
    assert (T1 : trace now ta tb 1
                 = Markers (Mach.to_u32 (elapsed now O)) (Mach.to_u32 (elapsed now O))).
    { cbn [trace]. unfold poll; simpl.
      replace (elapsed now O >=? ta) with true by (symmetry; rewrite Z.geb_le; lia).
      replace (elapsed now O >=? tb) with true by (symmetry; rewrite Z.geb_le; lia).
      reflexivity. }
    split; [exact T1|].
    assert (E : arrival_a m = arrival_b m); [|split; [exact E | exact (Tie E)]].
    apply race_exit_spec in Hm as (n & _ & X & ->). fold ta tb in X |- *.
    destruct (stops now ta tb O) eqn:S0.
    + rewrite (exits_at_first _ _ _ _ X S0), T1. reflexivity.
    + apply stops_false in S0 as [Le P]. rewrite T1 in P.
      apply pending_true in P. simpl in P.
      assert (Z0 : Mach.to_u32 (elapsed now O) = 0) by tauto.
      pose proof (target_a_range undef bias cc) as Ra.
      pose proof (target_b_range undef bias) as Rb. fold ta in Ra. fold tb in Rb.
      assert (elapsed now O = 0).
      { unfold Mach.to_u32 in Z0. unfold timeout in Le.
        rewrite Z.mod_small in Z0; lia. }
      apply trace_same_target. lia.
Qed.

(** Bias 0.5 and a clock advancing by 2000: the first poll reads 2000,
    beyond both thresholds. *)
Lemma tie_goes_to_path_A_witness :
  (2000 = 2000 -> winner (Result 0 2000 0) = 0) /\
  (target_a 0 bias_0_5 0 <= elapsed (ticking 5 2000) O ->
   target_b 0 bias_0_5 <= elapsed (ticking 5 2000) O ->
   trace (ticking 5 2000) (target_a 0 bias_0_5 0) (target_b 0 bias_0_5) 1
   = Markers (Mach.to_u32 (elapsed (ticking 5 2000) O))
             (Mach.to_u32 (elapsed (ticking 5 2000) O)) /\
   2000 = 2000 /\
   Result 0 2000 0 = Result 0 2000 0) /\
  target_a 0 bias_0_5 0 <= elapsed (ticking 5 2000) O /\
  target_b 0 bias_0_5 <= elapsed (ticking 5 2000) O.
Proof.
  split; [|split]; [| |vm_compute; split; discriminate].
  - apply (tie_goes_to_path_A 3 0 bias_0_5 0 (ticking 5 2000)
             (Markers 2000 2000) (Result 0 2000 0));
      vm_compute; reflexivity.
  - apply (tie_goes_to_path_A 3 0 bias_0_5 0 (ticking 5 2000)
             (Markers 2000 2000) (Result 0 2000 0));
      vm_compute; reflexivity.
Defined.

(** C5.  If some reading of the elapsed time exceeds 5000, the loop
    terminates, whatever the bias, the cycle count and the clock: with [n0]
    the poll after which it is left, every fuel above [n0] makes the
    function return the same result, and no smaller fuel does.  The loop
    is left after the first poll that either reads more than 5000 or finds
    both markers set; every earlier poll read at most 5000 and left a
    marker at 0. *)
Theorem race_loop_terminates undef bias cc now n :
  timeout < elapsed now n ->
  exists n0 m r,
    (n0 <= n)%nat /\
    (forall fuel, (n0 < fuel)%nat ->
       race_exit fuel undef bias cc now = Some m /\
       run_symmetric_race fuel undef bias cc now = Some r) /\
    (forall fuel, (fuel <= n0)%nat ->
       run_symmetric_race fuel undef bias cc now = None) /\
    m = trace now (target_a undef bias cc) (target_b undef bias) (S n0) /\
    (timeout < elapsed now n0 \/ (arrival_a m <> 0 /\ arrival_b m <> 0)) /\
    (forall j, (j < n0)%nat ->
       elapsed now j <= timeout /\
       (arrival_a (trace now (target_a undef bias cc) (target_b undef bias) (S j)) = 0 \/
        arrival_b (trace now (target_a undef bias cc) (target_b undef bias) (S j)) = 0)).
Proof.
  intros T. destruct (race_returns undef bias cc now n T) as (n0 & Hn0 & X & R).
  exists n0. eexists. eexists. split; [exact Hn0|].
  split; [|split; [|split; [reflexivity|split]]].
  - intros fuel Hf. unfold run_symmetric_race. rewrite (R fuel Hf). split; reflexivity.
  - intros fuel Hf. unfold run_symmetric_race.
    destruct (race_exit fuel undef bias cc now) as [m'|] eqn:E; [|reflexivity].
    apply race_exit_spec in E as (n' & Hn' & X' & _).
    pose proof (exits_at_unique _ _ _ _ _ X X'). lia.
  - apply stops_true. apply X.
  - intros j Hj. destruct X as [_ B]. specialize (B j Hj).
    apply stops_false in B as [Le P]. split; [exact Le|]. now apply pending_true.
Qed.

(** Bias 2.5 and a clock advancing by 100: the reading of poll 50 is 5100. *)
Lemma race_loop_terminates_witness :
  exists n0 m r,
    (n0 <= 50)%nat /\
    (forall fuel, (n0 < fuel)%nat ->
       race_exit fuel 0 bias_2_5 0 (ticking 9 100) = Some m /\
       run_symmetric_race fuel 0 bias_2_5 0 (ticking 9 100) = Some r) /\
    (forall fuel, (fuel <= n0)%nat ->
       run_symmetric_race fuel 0 bias_2_5 0 (ticking 9 100) = None) /\
    m = trace (ticking 9 100) (target_a 0 bias_2_5 0) (target_b 0 bias_2_5) (S n0) /\
    (timeout < elapsed (ticking 9 100) n0 \/ (arrival_a m <> 0 /\ arrival_b m <> 0)) /\
    (forall j, (j < n0)%nat ->
       elapsed (ticking 9 100) j <= timeout /\
       (arrival_a (trace (ticking 9 100) (target_a 0 bias_2_5 0) (target_b 0 bias_2_5) (S j)) = 0 \/
        arrival_b (trace (ticking 9 100) (target_a 0 bias_2_5 0) (target_b 0 bias_2_5) (S j)) = 0)).
Proof.
  apply (race_loop_terminates 0 bias_2_5 0 (ticking 9 100) 50).
  vm_compute. reflexivity.
Defined.

(** ** The readings are all that the loop takes from the clock *)
Section SameReadings.
Variables now1 now2 : clock.
Variables ta tb : Z.
Hypothesis same : forall k, elapsed now1 k = elapsed now2 k.

Lemma trace_same_readings k : trace now1 ta tb k = trace now2 ta tb k.
Proof.
  induction k as [|k IH]; [reflexivity|].
  cbn [trace]. now rewrite IH, same.
Qed.

Lemma stops_same_readings k : stops now1 ta tb k = stops now2 ta tb k.
Proof. unfold stops. now rewrite same, trace_same_readings. Qed.

Lemma exits_at_same_readings n : exits_at now1 ta tb n -> exits_at now2 ta tb n.
Proof.
  intros [S B]. split.
  - now rewrite <- stops_same_readings.
  - intros j Hj. rewrite <- stops_same_readings. now apply B.
Qed.

End SameReadings.

Lemma option_ext {A} (o1 o2 : option A) :
  (forall x, o1 = Some x -> o2 = Some x) ->
  (forall x, o2 = Some x -> o1 = Some x) -> o1 = o2.
Proof.
  intros H1 H2. destruct o1 as [x|].
  - symmetry. now apply H1.
  - destruct o2 as [y|]; [|reflexivity]. now apply H2.
Qed.

Lemma race_exit_same_readings fuel undef bias cc1 cc2 now1 now2 m :
  cpu_jitter cc1 = cpu_jitter cc2 ->
  (forall k, elapsed now1 k = elapsed now2 k) ->
  race_exit fuel undef bias cc1 now1 = Some m ->
  race_exit fuel undef bias cc2 now2 = Some m.
Proof.
  intros J Same H. apply race_exit_spec in H as (n & Hn & X & ->).
  apply race_exit_spec. exists n.
  rewrite <- (target_a_jitter undef bias cc1 cc2 J).
  split; [exact Hn|]. split.
  - now apply (exits_at_same_readings now1 now2).
  - now apply trace_same_readings.
Qed.

(** C6.  With a monotonic clock the latency returned is non-negative, and
    it is at most the timeout 5000 plus the increment between the last two
    clock readings of the run: with [n] the poll after which the loop is
    left, these are [now n] and [now (S n)]. *)
Theorem latency_bounded fuel undef bias cc now r :
  monotonic now ->
  run_symmetric_race fuel undef bias cc now = Some r ->
  0 <= latency r /\
  exists n,
    (n < fuel)%nat /\
    exits_at now (target_a undef bias cc) (target_b undef bias) n /\
    0 <= now (S n) - now n /\
    latency r <= timeout + (now (S n) - now n).
Proof.
  intros M H. apply run_spec in H as (m & Hm & ->).
  pose proof (race_exit_in_range _ _ _ _ _ _ Hm) as Rg.
  destruct (extract_value m Rg) as (_ & L & _). rewrite L.
  destruct Rg as [Ra Rb]. split; [lia|].
  apply race_exit_spec in Hm as (n & Hn & X & ->).
  exists n. split; [exact Hn|]. split; [exact X|].
  set (ta := target_a undef bias cc) in *. set (tb := target_b undef bias) in *.
  assert (I : 0 <= now (S n) - now n) by (destruct M as [_ M]; pose proof (M n); lia).
  split; [exact I|].
  apply Z.le_trans with (arrival_a (trace now ta tb (S n))); [apply Z.le_min_l|].
  destruct (Z.eq_dec (arrival_a (trace now ta tb (S n))) 0) as [E|E].
  - rewrite E. unfold timeout. lia.
  - destruct (trace_a_origin now ta tb (S n) E) as (i & Hi & _ & _ & ->).
    pose proof (monotonic_elapsed_nonneg now M i) as P.
    apply Z.le_trans with (elapsed now i); [now apply MachFacts.to_u32_le|].
    destruct X as [_ B].
    destruct (Nat.eq_dec i n) as [->|Hne].
    + rewrite (monotonic_elapsed now M).
      destruct n as [|n'].
      * unfold timeout. lia.
      * assert (Le : elapsed now n' <= timeout)
          by (apply (stops_false now ta tb); apply B; lia).
        rewrite (monotonic_elapsed now M) in Le. lia.
    + assert (Le : elapsed now i <= timeout)
        by (apply (stops_false now ta tb); apply B; lia).
      lia.
Qed.

(** Bias 0.5 and a clock advancing by 100: latency 800. *)
Lemma latency_bounded_witness :
  0 <= latency (Result 0 800 500) /\
  exists n,
    (n < 20)%nat /\
    exits_at (capped (ticking 77 100) 1000000)
             (target_a 0 bias_0_5 0) (target_b 0 bias_0_5) n /\
    0 <= capped (ticking 77 100) 1000000 (S n) - capped (ticking 77 100) 1000000 n /\
    latency (Result 0 800 500)
    <= timeout + (capped (ticking 77 100) 1000000 (S n)
                  - capped (ticking 77 100) 1000000 n).
Proof.
  apply (latency_bounded 20 0 bias_0_5 0 (capped (ticking 77 100) 1000000)).
  - split; [unfold capped, ticking; simpl; lia|].
    intros n. unfold capped, ticking. rewrite Nat2Z.inj_succ. lia.
  - vm_compute. reflexivity.
Defined.

(** C7.  Two invocations with the same bias, the same entropy sample (the
    cycle counts may differ, their residues modulo 5 may not) and clocks
    that produce the same sequence of elapsed-time readings (their epochs
    may differ) behave alike: for every fuel they return the same thing,
    and whenever both return, with whatever fuels, they return the same
    triple. *)
Theorem race_is_deterministic undef bias cc1 cc2 now1 now2 :
  cpu_jitter cc1 = cpu_jitter cc2 ->
  (forall k, elapsed now1 k = elapsed now2 k) ->
  (forall fuel,
     run_symmetric_race fuel undef bias cc1 now1
     = run_symmetric_race fuel undef bias cc2 now2) /\
  (forall fuel1 fuel2 r1 r2,
     run_symmetric_race fuel1 undef bias cc1 now1 = Some r1 ->
     run_symmetric_race fuel2 undef bias cc2 now2 = Some r2 ->
     r1 = r2).
Proof.
  intros J Same.
  assert (E : forall fuel, race_exit fuel undef bias cc1 now1
                           = race_exit fuel undef bias cc2 now2).
  { intros fuel. apply option_ext; intros m H.
    - now apply (race_exit_same_readings fuel undef bias cc1 cc2 now1 now2).
    - now apply (race_exit_same_readings fuel undef bias cc2 cc1 now2 now1). }
  split.
  - intros fuel. unfold run_symmetric_race. now rewrite E.
  - intros fuel1 fuel2 r1 r2 H1 H2.
    apply run_spec in H1 as (m1 & H1 & ->). apply run_spec in H2 as (m2 & H2 & ->).
    rewrite E in H1.
    apply (race_exit_fuel _ (Nat.max fuel1 fuel2)) in H1; [|lia].
    apply (race_exit_fuel _ (Nat.max fuel1 fuel2)) in H2; [|lia].
    congruence.
Qed.

(** Cycle counts 3 and 8, clocks started at 0 and at 1000 and advancing
    by 100. *)
Lemma race_is_deterministic_witness :
  (forall fuel,
     run_symmetric_race fuel 0 bias_0_5 3 (ticking 0 100)
     = run_symmetric_race fuel 0 bias_0_5 8 (ticking 1000 100)) /\
  (forall fuel1 fuel2 r1 r2,
     run_symmetric_race fuel1 0 bias_0_5 3 (ticking 0 100) = Some r1 ->
     run_symmetric_race fuel2 0 bias_0_5 8 (ticking 1000 100) = Some r2 ->
     r1 = r2).
Proof.
  apply (race_is_deterministic 0 bias_0_5 3 8 (ticking 0 100) (ticking 1000 100)).
  - vm_compute. reflexivity.
  - intros k. unfold elapsed, ticking, Mach.sub64. f_equal. lia.
Defined.

Lemma drift_0_5 undef : drift undef bias_0_5 = 250.
Proof. apply drift_defined. vm_compute. reflexivity. Qed.

(** C8 (as stated, refuted).  Bias 0.5 and entropy sample 0 give the
    thresholds 750 and 1250.  The clock below is strictly increasing and
    reads 800, then 4294967301: it passes 750 before 1250.  The second
    reading is cast to [uint32_t], so [arrival_b] becomes 5; B is declared
    the winner with latency 5 and delta 795, where the claim expects A,
    800 and 4294966501. *)
Lemma late_poll_reverses_the_race :
  target_a 0 bias_0_5 0 = 750 /\
  target_b 0 bias_0_5 = 1250 /\
  elapsed (scripted (0 :: 800 :: 4294967301 :: nil) 4294967302) 0 = 800 /\
  elapsed (scripted (0 :: 800 :: 4294967301 :: nil) 4294967302) 1 = 4294967301 /\
  run_symmetric_race 5 0 bias_0_5 0 (scripted (0 :: 800 :: 4294967301 :: nil) 4294967302)
  = Some (Result 1 5 795) /\
  Result 1 5 795 <> Result 0 800 (4294967301 - 800).
Proof. vm_compute. repeat split; discriminate. Qed.

(** C8 (amended).  For bias 0.5 and entropy sample 0 the thresholds are
    750 and 1250.  Let poll [i] be the first that reads at least 750 and
    poll [j] the first that reads at least 1250, with [i] before [j] (the
    clock passes 750 before 1250), and let the reading of poll [j] be
    below 2^32.  Then the result is winner A, latency the reading of poll
    [i], delta the reading of poll [j] minus that of poll [i]. *)
Theorem race_at_bias_0_5 fuel undef cc now i j :
  cpu_jitter cc = 0 ->
  (i < j)%nat ->
  (forall k, (k < i)%nat -> elapsed now k < 750) ->
  750 <= elapsed now i ->
  (forall k, (k < j)%nat -> elapsed now k < 1250) ->
  1250 <= elapsed now j < 2 ^ 32 ->
  (j < fuel)%nat ->
  target_a undef bias_0_5 cc = 750 /\
  target_b undef bias_0_5 = 1250 /\
  run_symmetric_race fuel undef bias_0_5 cc now
  = Some (Result 0 (elapsed now i) (elapsed now j - elapsed now i)).
Proof.
  intros J Hij Bi Ai Bj Aj Hf.
  assert (Ta : target_a undef bias_0_5 cc = 750)
    by (rewrite target_a_value, drift_0_5, J; reflexivity).
  assert (Tb : target_b undef bias_0_5 = 1250)
    by (rewrite target_b_value, drift_0_5; reflexivity).
  split; [exact Ta|]. split; [exact Tb|].
  assert (Ii : elapsed now i < 1250) by (apply Bj; lia).
  (* path B is clear up to and including the state before poll [j] *)
  assert (B0 : forall k, (k <= j)%nat -> arrival_b (trace now 750 1250 k) = 0).
  { intros k Hk. apply trace_b_clear. intros q Hq. apply Bj. lia. }
  (* path A arrives at poll [i] and keeps its value *)
  assert (A1 : arrival_a (trace now 750 1250 (S i)) = elapsed now i).
  { cbn [trace]. rewrite poll_sets_a; [apply MachFacts.to_u32_small; lia| |exact Ai].
    apply trace_a_clear. exact Bi. }
  assert (A2 : arrival_a (trace now 750 1250 (S j)) = elapsed now i).
  { replace (S j) with (S i + (j - i))%nat by lia.
    rewrite trace_keeps_a; [exact A1 | rewrite A1; lia]. }
  assert (B2 : arrival_b (trace now 750 1250 (S j)) = elapsed now j).
  { cbn [trace]. rewrite poll_sets_b; [apply MachFacts.to_u32_small; lia| |lia].
    apply B0. lia. }
  assert (X : exits_at now 750 1250 j).
  { split.
    - apply stops_true. right. rewrite A2, B2. lia.
    - intros k Hk. unfold stops.
      assert (P : pending (trace now 750 1250 (S k)) = true)
        by (apply pending_true; right; apply B0; lia).
      rewrite P. specialize (Bj k Hk).
      destruct (Z.gtb_spec (elapsed now k) timeout) as [G|G]; [|reflexivity].
      unfold timeout in G. lia. }
  assert (R : race_exit fuel undef bias_0_5 cc now = Some (trace now 750 1250 (S j))).
  { apply race_exit_spec. exists j. rewrite Ta, Tb. auto. }
  unfold run_symmetric_race. rewrite R. f_equal.
  unfold extract. rewrite A2, B2.
  destruct (Z.leb_spec (elapsed now i) (elapsed now j)) as [L|L]; [|lia].
  simpl (if 0 =? 0 then _ else _).
  destruct (Z.gtb_spec (elapsed now i) (elapsed now j)) as [G|G]; [lia|].
  rewrite MachFacts.to_u32_small by lia. reflexivity.
Qed.

(** A clock advancing by 100: poll 7 reads 800 and poll 12 reads 1300. *)
Lemma race_at_bias_0_5_witness :
  target_a 0 bias_0_5 0 = 750 /\
  target_b 0 bias_0_5 = 1250 /\
  run_symmetric_race 20 0 bias_0_5 0 (ticking 40 100)
  = Some (Result 0 (elapsed (ticking 40 100) 7)
                   (elapsed (ticking 40 100) 12 - elapsed (ticking 40 100) 7)).
Proof.
  assert (E : forall k, (k < 13)%nat ->
            elapsed (ticking 40 100) k = 100 * Z.of_nat (S k)).
  { intros k Hk. unfold elapsed, ticking.
    rewrite MachFacts.sub64_small; lia. }
  apply (race_at_bias_0_5 20 0 0 (ticking 40 100) 7 12).
  - vm_compute. reflexivity.
  - lia.
  - intros k Hk. rewrite E; lia.
  - vm_compute. discriminate.
  - intros k Hk. rewrite E; lia.
  - vm_compute. split; [discriminate | reflexivity].
  - lia.
Defined.

(** C9.  If the loop is left with exactly one marker set, the path whose
    marker is still 0 is declared the winner, the latency is 0 and the
    delta is the arrival time of the other path.  Such an exit is always
    an exit by timeout: the last poll read more than 5000. *)
Theorem timeout_with_one_arrival fuel undef bias cc now m r :
  race_exit fuel undef bias cc now = Some m ->
  run_symmetric_race fuel undef bias cc now = Some r ->
  (arrival_a m = 0 -> 0 < arrival_b m ->
   winner r = 0 /\ latency r = 0 /\ delta r = arrival_b m) /\
  (0 < arrival_a m -> arrival_b m = 0 ->
   winner r = 1 /\ latency r = 0 /\ delta r = arrival_a m) /\
  (arrival_a m = 0 \/ arrival_b m = 0 ->
   exists n,
     exits_at now (target_a undef bias cc) (target_b undef bias) n /\
     m = trace now (target_a undef bias cc) (target_b undef bias) (S n) /\
     timeout < elapsed now n).
Proof.
  intros Hm Hr.
  assert (R : r = extract m).
  { apply run_spec in Hr as (m' & Hm' & ->). congruence. }
  pose proof (race_exit_in_range _ _ _ _ _ _ Hm) as [Ra Rb].
  destruct (extract_value m (conj Ra Rb)) as (W & L & D).
  subst r. rewrite W, L, D. split; [|split].
  - intros A B. rewrite A.
    destruct (Z.leb_spec 0 (arrival_b m)); [|lia]. repeat split; lia.
  - intros A B. rewrite B.
    destruct (Z.leb_spec (arrival_a m) 0); [lia|]. repeat split; lia.
  - intros Z0. apply race_exit_spec in Hm as (n & _ & X & ->).
    exists n. split; [exact X|]. split; [reflexivity|].
    destruct X as [S _]. apply stops_true in S as [T|[Na Nb]]; [exact T|].
    tauto.
Qed.

(** Bias 2.5 and a clock advancing by 100: path A never arrives, path B
    arrives at 2300. *)
Lemma timeout_with_one_arrival_witness :
  (arrival_a (Markers 0 2300) = 0 -> 0 < arrival_b (Markers 0 2300) ->
   winner (Result 0 0 2300) = 0 /\ latency (Result 0 0 2300) = 0 /\
   delta (Result 0 0 2300) = arrival_b (Markers 0 2300)) /\
  (0 < arrival_a (Markers 0 2300) -> arrival_b (Markers 0 2300) = 0 ->
   winner (Result 0 0 2300) = 1 /\ latency (Result 0 0 2300) = 0 /\
   delta (Result 0 0 2300) = arrival_a (Markers 0 2300)) /\
  (arrival_a (Markers 0 2300) = 0 \/ arrival_b (Markers 0 2300) = 0 ->
   exists n,
     exits_at (ticking 123456 100) (target_a 0 bias_2_5 0) (target_b 0 bias_2_5) n /\
     Markers 0 2300
     = trace (ticking 123456 100) (target_a 0 bias_2_5 0) (target_b 0 bias_2_5) (S n) /\
     timeout < elapsed (ticking 123456 100) n).
Proof.
  apply (timeout_with_one_arrival 60 0 bias_2_5 0 (ticking 123456 100));
    vm_compute; reflexivity.
Defined.

(** ** Readings of 0 *)
Section Deferred.
Variable now : clock.
Variables ta tb : Z.

(** With a threshold of 0, a marker stays clear over polls that read 0 or
    less. *)
Lemma trace_a_deferred k d :
  ta = 0 -> arrival_a (trace now ta tb k) = 0 ->
  (forall i, (k <= i < k + d)%nat -> elapsed now i <= 0) ->
  arrival_a (trace now ta tb (k + d)) = 0.
Proof.
  intros T A. induction d as [|d IH]; intros H.
  - now rewrite Nat.add_0_r.
  - rewrite Nat.add_succ_r. cbn [trace].
    assert (A' : arrival_a (trace now ta tb (k + d)) = 0)
      by (apply IH; intros i Hi; apply H; lia).
    assert (Le : elapsed now (k + d) <= 0) by (apply H; lia).
    destruct (Z.eq_dec (elapsed now (k + d)) 0) as [E|E].
    + rewrite poll_sets_a; [now rewrite E | exact A' | lia].
    + apply poll_skips_a; [exact A' | lia].
Qed.

Lemma trace_b_deferred k d :
  tb = 0 -> arrival_b (trace now ta tb k) = 0 ->
  (forall i, (k <= i < k + d)%nat -> elapsed now i <= 0) ->
  arrival_b (trace now ta tb (k + d)) = 0.
Proof.
  intros T B. induction d as [|d IH]; intros H.
  - now rewrite Nat.add_0_r.
  - rewrite Nat.add_succ_r. cbn [trace].
    assert (B' : arrival_b (trace now ta tb (k + d)) = 0)
      by (apply IH; intros i Hi; apply H; lia).
    assert (Le : elapsed now (k + d) <= 0) by (apply H; lia).
    destruct (Z.eq_dec (elapsed now (k + d)) 0) as [E|E].
    + rewrite poll_sets_b; [now rewrite E | exact B' | lia].
    + apply poll_skips_b; [exact B' | lia].
Qed.

End Deferred.

(** C10 (as stated, refuted).  Bias -2.0 gives [target_b = 0].  The clock
    below reads 0 on the first poll, which satisfies the threshold of B
    and leaves [arrival_b] at 0, and 4294967296 on the second: the first
    strictly positive reading.  Its cast to [uint32_t] is 0, so B does not
    arrive at that reading either, and the loop is left by the timeout
    with both markers at 0. *)
Lemma arrival_is_lost_at_2_pow_32 :
  target_a 0 bias_neg_2 0 = 2000 /\
  target_b 0 bias_neg_2 = 0 /\
  elapsed (scripted (0 :: 0 :: 4294967296 :: nil) 4294967297) 0 = 0 /\
  arrival_b (trace (scripted (0 :: 0 :: 4294967296 :: nil) 4294967297) 2000 0 1) = 0 /\
  elapsed (scripted (0 :: 0 :: 4294967296 :: nil) 4294967297) 1 = 4294967296 /\
  arrival_b (trace (scripted (0 :: 0 :: 4294967296 :: nil) 4294967297) 2000 0 2) = 0 /\
  race_exit 5 0 bias_neg_2 0 (scripted (0 :: 0 :: 4294967296 :: nil) 4294967297)
  = Some (Markers 0 0).
Proof. vm_compute. repeat split. Qed.

(** C10 (amended).  After any number of polls each marker is 0 or a
    strictly positive [uint32_t] value, and a marker that is not 0 keeps
    its value over all later polls; the markers returned by the loop are
    those after some poll.  A path whose threshold is satisfied at a
    reading of 0 stays at 0 until the first strictly positive reading,
    where its marker takes that reading modulo 2^32: the reading itself
    when it is below 2^32, and still 0 when it is a multiple of 2^32. *)
Theorem markers_are_set_once undef bias cc now :
  (forall k,
     in_range (trace now (target_a undef bias cc) (target_b undef bias) k)) /\
  (forall k j,
     arrival_a (trace now (target_a undef bias cc) (target_b undef bias) k) <> 0 ->
     arrival_a (trace now (target_a undef bias cc) (target_b undef bias) (k + j))
     = arrival_a (trace now (target_a undef bias cc) (target_b undef bias) k)) /\
  (forall k j,
     arrival_b (trace now (target_a undef bias cc) (target_b undef bias) k) <> 0 ->
     arrival_b (trace now (target_a undef bias cc) (target_b undef bias) (k + j))
     = arrival_b (trace now (target_a undef bias cc) (target_b undef bias) k)) /\
  (forall fuel m,
     race_exit fuel undef bias cc now = Some m ->
     exists n, m = trace now (target_a undef bias cc) (target_b undef bias) (S n)) /\
  (forall k k',
     (k < k')%nat ->
     arrival_a (trace now (target_a undef bias cc) (target_b undef bias) k) = 0 ->
     elapsed now k = 0 -> target_a undef bias cc <= elapsed now k ->
     (forall i, (k < i < k')%nat -> elapsed now i <= 0) ->
     0 < elapsed now k' ->
     arrival_a (trace now (target_a undef bias cc) (target_b undef bias) k') = 0 /\
     arrival_a (trace now (target_a undef bias cc) (target_b undef bias) (S k'))
     = Mach.to_u32 (elapsed now k') /\
     (elapsed now k' < 2 ^ 32 ->
      arrival_a (trace now (target_a undef bias cc) (target_b undef bias) (S k'))
      = elapsed now k')) /\
  (forall k k',
     (k < k')%nat ->
     arrival_b (trace now (target_a undef bias cc) (target_b undef bias) k) = 0 ->
     elapsed now k = 0 -> target_b undef bias <= elapsed now k ->
     (forall i, (k < i < k')%nat -> elapsed now i <= 0) ->
     0 < elapsed now k' ->
     arrival_b (trace now (target_a undef bias cc) (target_b undef bias) k') = 0 /\
     arrival_b (trace now (target_a undef bias cc) (target_b undef bias) (S k'))
     = Mach.to_u32 (elapsed now k') /\
     (elapsed now k' < 2 ^ 32 ->
      arrival_b (trace now (target_a undef bias cc) (target_b undef bias) (S k'))
      = elapsed now k')).
Proof.
  pose proof (target_a_range undef bias cc) as Ra.
  pose proof (target_b_range undef bias) as Rb.
  set (ta := target_a undef bias cc) in *. set (tb := target_b undef bias) in *.
  split; [apply trace_in_range|].
  split; [apply trace_keeps_a|].
  split; [apply trace_keeps_b|].
  split; [|split].
  - intros fuel m H. apply race_exit_spec in H as (n & _ & _ & ->). now exists n.
  - intros k k' Hk A E0 T Z0 P.
    assert (A' : arrival_a (trace now ta tb k') = 0).
    { replace k' with (k + (k' - k))%nat by lia.
      apply trace_a_deferred; [lia | exact A|].
      intros i Hi. destruct (Nat.eq_dec i k) as [->|Hne]; [lia|]. apply Z0. lia. }
    split; [exact A'|].
    assert (S' : arrival_a (trace now ta tb (S k')) = Mach.to_u32 (elapsed now k')).
    { cbn [trace]. apply poll_sets_a; [exact A' | lia]. }
    split; [exact S'|].
    intros Lt. rewrite S'. apply MachFacts.to_u32_small. lia.
  - intros k k' Hk B E0 T Z0 P.
    assert (B' : arrival_b (trace now ta tb k') = 0).
    { replace k' with (k + (k' - k))%nat by lia.
      apply trace_b_deferred; [lia | exact B|].
      intros i Hi. destruct (Nat.eq_dec i k) as [->|Hne]; [lia|]. apply Z0. lia. }
    split; [exact B'|].
    assert (S' : arrival_b (trace now ta tb (S k')) = Mach.to_u32 (elapsed now k')).
    { cbn [trace]. apply poll_sets_b; [exact B' | lia]. }
    split; [exact S'|].
    intros Lt. rewrite S'. apply MachFacts.to_u32_small. lia.
Qed.

(** Bias -2.0 and readings 0, 0, 9: path B arrives at 9, on the third
    poll. *)
Lemma markers_are_set_once_witness :
  arrival_b (trace (scripted (50 :: 50 :: 50 :: 59 :: nil) 60)
                   (target_a 0 bias_neg_2 0) (target_b 0 bias_neg_2) 2) = 0 /\
  arrival_b (trace (scripted (50 :: 50 :: 50 :: 59 :: nil) 60)
                   (target_a 0 bias_neg_2 0) (target_b 0 bias_neg_2) 3)
  = Mach.to_u32 (elapsed (scripted (50 :: 50 :: 50 :: 59 :: nil) 60) 2) /\
  (elapsed (scripted (50 :: 50 :: 50 :: 59 :: nil) 60) 2 < 2 ^ 32 ->
   arrival_b (trace (scripted (50 :: 50 :: 50 :: 59 :: nil) 60)
                    (target_a 0 bias_neg_2 0) (target_b 0 bias_neg_2) 3)
   = elapsed (scripted (50 :: 50 :: 50 :: 59 :: nil) 60) 2).
Proof.
  apply (markers_are_set_once 0 bias_neg_2 0
           (scripted (50 :: 50 :: 50 :: 59 :: nil) 60)) with (k := O).
  - lia.
  - vm_compute. reflexivity.
  - vm_compute. reflexivity.
  - vm_compute. discriminate.
  - intros i Hi. assert (i = 1%nat) as -> by lia. vm_compute. discriminate.
  - vm_compute. reflexivity.
Defined.

(** * Further properties of the race engine *)

(** ** Which poll sets a marker *)
Section Crossing.
Variable now : clock.
Variables ta tb : Z.

(** A marker that is clear after [k'] polls was clear after any smaller
    number of polls. *)
Lemma trace_a_clear_before k k' :
  (k <= k')%nat -> arrival_a (trace now ta tb k') = 0 ->
  arrival_a (trace now ta tb k) = 0.
Proof.
  intros L Z0. destruct (Z.eq_dec (arrival_a (trace now ta tb k)) 0) as [E|E];
    [exact E|].
  pose proof (trace_keeps_a now ta tb k (k' - k) E) as K.
  replace (k + (k' - k))%nat with k' in K by lia. congruence.
Qed.

Lemma trace_b_clear_before k k' :
  (k <= k')%nat -> arrival_b (trace now ta tb k') = 0 ->
  arrival_b (trace now ta tb k) = 0.
Proof.
  intros L Z0. destruct (Z.eq_dec (arrival_b (trace now ta tb k)) 0) as [E|E];
    [exact E|].
  pose proof (trace_keeps_b now ta tb k (k' - k) E) as K.
  replace (k + (k' - k))%nat with k' in K by lia. congruence.
Qed.

(** A poll that leaves a marker clear read less than the threshold, or a
    value whose low 32 bits are all 0. *)
Lemma clear_after_poll_a k :
  arrival_a (trace now ta tb (S k)) = 0 ->
  elapsed now k < ta \/ Mach.to_u32 (elapsed now k) = 0.
Proof.
  intros Z0. destruct (Z.lt_ge_cases (elapsed now k) ta) as [L|G]; [now left|].
  right. rewrite <- Z0. cbn [trace]. symmetry. apply poll_sets_a; [|exact G].
  now apply (trace_a_clear_before k (S k)); [lia|].
Qed.

Lemma clear_after_poll_b k :
  arrival_b (trace now ta tb (S k)) = 0 ->
  elapsed now k < tb \/ Mach.to_u32 (elapsed now k) = 0.
Proof.
  intros Z0. destruct (Z.lt_ge_cases (elapsed now k) tb) as [L|G]; [now left|].
  right. rewrite <- Z0. cbn [trace]. symmetry. apply poll_sets_b; [|exact G].
  now apply (trace_b_clear_before k (S k)); [lia|].
Qed.

(** The poll that set a marker is the first whose reading met the
    threshold with low 32 bits that are not all 0. *)
Lemma trace_a_first k :
  arrival_a (trace now ta tb k) <> 0 ->
  exists i, (i < k)%nat /\ arrival_a (trace now ta tb i) = 0 /\
            ta <= elapsed now i /\
            arrival_a (trace now ta tb k) = Mach.to_u32 (elapsed now i) /\
            forall i', (i' < i)%nat ->
              elapsed now i' < ta \/ Mach.to_u32 (elapsed now i') = 0.
Proof.
  intros H. destruct (trace_a_origin now ta tb k H) as (i & Hi & Z0 & T & E).
  exists i. repeat split; auto.
  intros i' Hi'. apply clear_after_poll_a.
  now apply (trace_a_clear_before (S i') i); [lia|].
Qed.

Lemma trace_b_first k :
  arrival_b (trace now ta tb k) <> 0 ->
  exists i, (i < k)%nat /\ arrival_b (trace now ta tb i) = 0 /\
            tb <= elapsed now i /\
            arrival_b (trace now ta tb k) = Mach.to_u32 (elapsed now i) /\
            forall i', (i' < i)%nat ->
              elapsed now i' < tb \/ Mach.to_u32 (elapsed now i') = 0.
Proof.
  intros H. destruct (trace_b_origin now ta tb k H) as (i & Hi & Z0 & T & E).
  exists i. repeat split; auto.
  intros i' Hi'. apply clear_after_poll_b.
  now apply (trace_b_clear_before (S i') i); [lia|].
Qed.

(** *** Readings that fit 32 bits *)
Hypothesis Ta : 0 <= ta.
Hypothesis Tb : 0 <= tb.
Hypothesis fits : forall k, elapsed now k < 2 ^ 32.

(** A marker that is set is at least its threshold. *)
Lemma marker_a_above k :
  arrival_a (trace now ta tb k) <> 0 -> ta <= arrival_a (trace now ta tb k).
Proof.
  intros H. destruct (trace_a_origin now ta tb k H) as (i & _ & _ & T & ->).
  rewrite MachFacts.to_u32_small; [exact T|]. pose proof (fits i). lia.
Qed.

Lemma marker_b_above k :
  arrival_b (trace now ta tb k) <> 0 -> tb <= arrival_b (trace now ta tb k).
Proof.
  intros H. destruct (trace_b_origin now ta tb k H) as (i & _ & _ & T & ->).
  rewrite MachFacts.to_u32_small; [exact T|]. pose proof (fits i). lia.
Qed.

(** With both markers set, B holds the smaller value exactly when it is
    below the threshold of A: B was then set by an earlier poll than A. *)
Lemma b_before_a k :
  arrival_a (trace now ta tb k) <> 0 -> arrival_b (trace now ta tb k) <> 0 ->
  (arrival_b (trace now ta tb k) < arrival_a (trace now ta tb k)
   <-> arrival_b (trace now ta tb k) < ta).
Proof.
  intros Ha Hb.
  destruct (trace_a_origin now ta tb k Ha) as (i & Hi & Ai & Ti & Ea).
  destruct (trace_b_origin now ta tb k Hb) as (j & Hj & Bj & Tj & Eb).
  pose proof (fits i) as Fi. pose proof (fits j) as Fj.
  rewrite MachFacts.to_u32_small in Ea by lia.
  rewrite MachFacts.to_u32_small in Eb by lia.
  rewrite Ea, Eb.
  destruct (Nat.lt_trichotomy i j) as [L|[E|L]].
  - (* A first: the poll of A left B clear, so it read less than [tb] *)
    assert (C : elapsed now i < tb \/ Mach.to_u32 (elapsed now i) = 0).
    { apply clear_after_poll_b. now apply (trace_b_clear_before (S i) j); [lia|]. }
    rewrite MachFacts.to_u32_small in C by lia. lia.
  - subst j. lia.
  - assert (C : elapsed now j < ta \/ Mach.to_u32 (elapsed now j) = 0).
    { apply clear_after_poll_a. now apply (trace_a_clear_before (S j) i); [lia|]. }
    rewrite MachFacts.to_u32_small in C by lia. lia.
Qed.

(** With thresholds within the timeout, the loop is left with both
    markers set. *)
Lemma both_set_at_exit n :
  ta <= timeout -> tb <= timeout -> exits_at now ta tb n ->
  arrival_a (trace now ta tb (S n)) <> 0 /\ arrival_b (trace now ta tb (S n)) <> 0.
Proof.
  intros La Lb [S _]. apply stops_true in S as [T|B]; [|exact B].
  pose proof (fits n) as F. unfold timeout in *.
  assert (U : Mach.to_u32 (elapsed now n) = elapsed now n)
    by (apply MachFacts.to_u32_small; lia).
  split.
  - destruct (poll_a_cases ta tb (elapsed now n) (trace now ta tb n)) as [E|(_ & _ & E)];
      cbn [trace].
    + rewrite E. intros Z0.
      pose proof (poll_sets_a ta tb (elapsed now n) _ Z0 ltac:(lia)) as P.
      rewrite E, Z0 in P. lia.
    + rewrite E. lia.
  - destruct (poll_b_cases ta tb (elapsed now n) (trace now ta tb n)) as [E|(_ & _ & E)];
      cbn [trace].
    + rewrite E. intros Z0.
      pose proof (poll_sets_b ta tb (elapsed now n) _ Z0 ltac:(lia)) as P.
      rewrite E, Z0 in P. lia.
    + rewrite E. lia.
Qed.

End Crossing.

(** ** Bounds on the markers under a monotonic clock *)
Section Bounds.
Variable now : clock.
Variables ta tb : Z.
Hypothesis mono : monotonic now.

Lemma reading_bounded n i :
  exits_at now ta tb n -> (i <= n)%nat ->
  0 <= elapsed now i <= timeout + (now (S n) - now n).
Proof.
  intros [_ B] Hi.
  pose proof (monotonic_elapsed_nonneg now mono i) as P.
  assert (I : 0 <= now (S n) - now n)
    by (destruct mono as [_ M]; pose proof (M n); lia).
  split; [exact P|].
  destruct (Nat.eq_dec i n) as [->|Hne].
  - rewrite (monotonic_elapsed now mono).
    destruct n as [|n'].
    + unfold timeout. lia.
    + assert (Le : elapsed now n' <= timeout)
        by (apply (stops_false now ta tb); apply B; lia).
      rewrite (monotonic_elapsed now mono) in Le. lia.
  - assert (Le : elapsed now i <= timeout)
      by (apply (stops_false now ta tb); apply B; lia).
    lia.
Qed.

Lemma marker_a_bounded n :
  exits_at now ta tb n ->
  arrival_a (trace now ta tb (S n)) <= timeout + (now (S n) - now n).
Proof.
  intros X.
  destruct (Z.eq_dec (arrival_a (trace now ta tb (S n))) 0) as [E|E].
  - rewrite E. pose proof (reading_bounded n n X (Nat.le_refl n)). lia.
  - destruct (trace_a_origin now ta tb (S n) E) as (i & Hi & _ & _ & ->).
    pose proof (reading_bounded n i X ltac:(lia)) as [P Q].
    pose proof (MachFacts.to_u32_le _ P). lia.
Qed.

Lemma marker_b_bounded n :
  exits_at now ta tb n ->
  arrival_b (trace now ta tb (S n)) <= timeout + (now (S n) - now n).
Proof.
  intros X.
  destruct (Z.eq_dec (arrival_b (trace now ta tb (S n))) 0) as [E|E].
  - rewrite E. pose proof (reading_bounded n n X (Nat.le_refl n)). lia.
  - destruct (trace_b_origin now ta tb (S n) E) as (i & Hi & _ & _ & ->).
    pose proof (reading_bounded n i X ltac:(lia)) as [P Q].
    pose proof (MachFacts.to_u32_le _ P). lia.
Qed.

End Bounds.

(** X1.  A marker that is set when the loop is left holds the low 32 bits
    of the reading of the first poll whose reading met the threshold with
    low 32 bits not all 0; a marker that is still 0 means that every poll
    of the run read less than the threshold, or a value whose low 32 bits
    are all 0. *)
Theorem arrival_is_first_crossing fuel undef bias cc now m :
  race_exit fuel undef bias cc now = Some m ->
  exists n,
    (n < fuel)%nat /\
    m = trace now (target_a undef bias cc) (target_b undef bias) (S n) /\
    (arrival_a m <> 0 ->
     exists i, (i <= n)%nat /\ target_a undef bias cc <= elapsed now i /\
       arrival_a m = Mach.to_u32 (elapsed now i) /\
       forall i', (i' < i)%nat ->
         elapsed now i' < target_a undef bias cc \/ Mach.to_u32 (elapsed now i') = 0) /\
    (arrival_a m = 0 ->
     forall i, (i <= n)%nat ->
       elapsed now i < target_a undef bias cc \/ Mach.to_u32 (elapsed now i) = 0) /\
    (arrival_b m <> 0 ->
     exists i, (i <= n)%nat /\ target_b undef bias <= elapsed now i /\
       arrival_b m = Mach.to_u32 (elapsed now i) /\
       forall i', (i' < i)%nat ->
         elapsed now i' < target_b undef bias \/ Mach.to_u32 (elapsed now i') = 0) /\
    (arrival_b m = 0 ->
     forall i, (i <= n)%nat ->
       elapsed now i < target_b undef bias \/ Mach.to_u32 (elapsed now i) = 0).
Proof.
  intros H. apply race_exit_spec in H as (n & Hn & _ & ->).
  set (ta := target_a undef bias cc). set (tb := target_b undef bias).
  exists n. split; [exact Hn|]. split; [reflexivity|].
  split; [|split; [|split]].
  - intros E. destruct (trace_a_first now ta tb (S n) E) as (i & Hi & _ & T & V & F).
    exists i. repeat split; auto. lia.
  - intros Z0 i Hi. apply (clear_after_poll_a now ta tb).
    now apply (trace_a_clear_before now ta tb (S i) (S n)); [lia|].
  - intros E. destruct (trace_b_first now ta tb (S n) E) as (i & Hi & _ & T & V & F).
    exists i. repeat split; auto. lia.
  - intros Z0 i Hi. apply (clear_after_poll_b now ta tb).
    now apply (trace_b_clear_before now ta tb (S i) (S n)); [lia|].
Qed.

(** Bias 0.5 and a clock advancing by 100: A is set by poll 7 (reading
    800), B by poll 12 (reading 1300). *)
Lemma arrival_is_first_crossing_witness :
  exists n,
    (n < 20)%nat /\
    Markers 800 1300
    = trace (ticking 40 100) (target_a 0 bias_0_5 0) (target_b 0 bias_0_5) (S n) /\
    (arrival_a (Markers 800 1300) <> 0 ->
     exists i, (i <= n)%nat /\ target_a 0 bias_0_5 0 <= elapsed (ticking 40 100) i /\
       arrival_a (Markers 800 1300) = Mach.to_u32 (elapsed (ticking 40 100) i) /\
       forall i', (i' < i)%nat ->
         elapsed (ticking 40 100) i' < target_a 0 bias_0_5 0 \/
         Mach.to_u32 (elapsed (ticking 40 100) i') = 0) /\
    (arrival_a (Markers 800 1300) = 0 ->
     forall i, (i <= n)%nat ->
       elapsed (ticking 40 100) i < target_a 0 bias_0_5 0 \/
       Mach.to_u32 (elapsed (ticking 40 100) i) = 0) /\
    (arrival_b (Markers 800 1300) <> 0 ->
     exists i, (i <= n)%nat /\ target_b 0 bias_0_5 <= elapsed (ticking 40 100) i /\
       arrival_b (Markers 800 1300) = Mach.to_u32 (elapsed (ticking 40 100) i) /\
       forall i', (i' < i)%nat ->
         elapsed (ticking 40 100) i' < target_b 0 bias_0_5 \/
         Mach.to_u32 (elapsed (ticking 40 100) i') = 0) /\
    (arrival_b (Markers 800 1300) = 0 ->
     forall i, (i <= n)%nat ->
       elapsed (ticking 40 100) i < target_b 0 bias_0_5 \/
       Mach.to_u32 (elapsed (ticking 40 100) i) = 0).
Proof.
  apply (arrival_is_first_crossing 20 0 bias_0_5 0 (ticking 40 100)).
  vm_compute. reflexivity.
Defined.

(** X2.  When both thresholds are at most the timeout 5000 and the
    readings fit 32 bits, the loop is left with both markers set, each at
    least its threshold; the latency returned is then strictly positive
    and at least the smaller threshold. *)
Theorem both_paths_arrive fuel undef bias cc now m r :
  target_a undef bias cc <= timeout ->
  target_b undef bias <= timeout ->
  (forall k, elapsed now k < 2 ^ 32) ->
  race_exit fuel undef bias cc now = Some m ->
  run_symmetric_race fuel undef bias cc now = Some r ->
  0 < arrival_a m /\ 0 < arrival_b m /\
  target_a undef bias cc <= arrival_a m /\
  target_b undef bias <= arrival_b m /\
  0 < latency r /\
  Z.min (target_a undef bias cc) (target_b undef bias) <= latency r.
Proof.
  intros La Lb F Hm Hr.
  assert (R : r = extract m).
  { apply run_spec in Hr as (m' & Hm' & ->). congruence. }
  pose proof (race_exit_in_range _ _ _ _ _ _ Hm) as Rg.
  destruct (extract_value m Rg) as (_ & L & _). subst r. rewrite L.
  destruct Rg as [Ra Rb].
  apply race_exit_spec in Hm as (n & _ & X & ->).
  destruct (both_set_at_exit now _ _ F n La Lb X) as [Na Nb].
  pose proof (marker_a_above now _ _ (proj1 (target_a_range undef bias cc)) F _ Na) as Aa.
  pose proof (marker_b_above now _ _ (proj1 (target_b_range undef bias)) F _ Nb) as Ab.
  repeat split; lia.
Qed.

(** X3.  Under the same conditions path B is declared the winner exactly
    when its arrival time is below the threshold of A, that is when B was
    set by an earlier poll than A; otherwise the winner is A. *)
Theorem winner_is_B_iff fuel undef bias cc now m r :
  target_a undef bias cc <= timeout ->
  target_b undef bias <= timeout ->
  (forall k, elapsed now k < 2 ^ 32) ->
  race_exit fuel undef bias cc now = Some m ->
  run_symmetric_race fuel undef bias cc now = Some r ->
  (winner r = 1 <-> arrival_b m < target_a undef bias cc) /\
  (winner r = 0 <-> target_a undef bias cc <= arrival_b m).
Proof.
  intros La Lb F Hm Hr.
  assert (R : r = extract m).
  { apply run_spec in Hr as (m' & Hm' & ->). congruence. }
  pose proof (race_exit_in_range _ _ _ _ _ _ Hm) as Rg.
  destruct (extract_value m Rg) as (W & _ & _). subst r. rewrite W.
  apply race_exit_spec in Hm as (n & _ & X & ->).
  destruct (both_set_at_exit now _ _ F n La Lb X) as [Na Nb].
  pose proof (b_before_a now _ _ (proj1 (target_a_range undef bias cc))
                (proj1 (target_b_range undef bias)) F (S n) Na Nb) as O.
  destruct (Z.leb_spec
              (arrival_a (trace now (target_a undef bias cc) (target_b undef bias) (S n)))
              (arrival_b (trace now (target_a undef bias cc) (target_b undef bias) (S n))));
    destruct O as [O1 O2];
    split; split; intros ?; try reflexivity; try discriminate; lia.
Qed.

(** The readings of a clock advancing in steps and frozen at 1000000 fit
    32 bits. *)
Lemma capped_ticking_fits epoch step k :
  0 <= epoch <= 1000000 -> 0 <= step ->
  0 <= elapsed (capped (ticking epoch step) 1000000) k < 2 ^ 32.
Proof.
  intros E S. unfold elapsed, capped, ticking.
  rewrite MachFacts.sub64_small; nia.
Qed.

(** Bias 0.5 and a clock advancing by 100. *)
Lemma both_paths_arrive_witness :
  0 < arrival_a (Markers 800 1300) /\ 0 < arrival_b (Markers 800 1300) /\
  target_a 0 bias_0_5 0 <= arrival_a (Markers 800 1300) /\
  target_b 0 bias_0_5 <= arrival_b (Markers 800 1300) /\
  0 < latency (Result 0 800 500) /\
  Z.min (target_a 0 bias_0_5 0) (target_b 0 bias_0_5) <= latency (Result 0 800 500).
Proof.
  apply (both_paths_arrive 20 0 bias_0_5 0 (capped (ticking 77 100) 1000000)).
  - vm_compute. discriminate.
  - vm_compute. discriminate.
  - intros k. apply capped_ticking_fits; lia.
  - vm_compute. reflexivity.
  - vm_compute. reflexivity.
Defined.

(** Bias 0.0 with jitter 3 gives the thresholds 1003 and 1000; a clock
    advancing by 77 reads 1001 on poll 12, which sets B alone, and 1078 on
    poll 13: B wins. *)
Lemma winner_is_B_iff_witness :
  (winner (Result 1 1001 77) = 1
   <-> arrival_b (Markers 1078 1001) < target_a 0 bias_0 3) /\
  (winner (Result 1 1001 77) = 0
   <-> target_a 0 bias_0 3 <= arrival_b (Markers 1078 1001)).
Proof.
  apply (winner_is_B_iff 20 0 bias_0 3 (capped (ticking 0 77) 1000000)).
  - vm_compute. discriminate.
  - vm_compute. discriminate.
  - intros k. apply capped_ticking_fits; lia.
  - vm_compute. reflexivity.
  - vm_compute. reflexivity.
Defined.

(** A race with a drift between 0 and 1000: neither threshold wraps and
    both are within the timeout. *)
Lemma race_with_drift fuel undef bias cc now d r :
  F32.to_int (F32.mul bias (F32.of_int bias_scale)) = Some d ->
  0 <= d <= 1000 ->
  (forall k, elapsed now k < 2 ^ 32) ->
  run_symmetric_race fuel undef bias cc now = Some r ->
  target_a undef bias cc = baseline - d + cpu_jitter cc /\
  target_b undef bias = baseline + d /\
  baseline - d <= latency r /\
  (2 <= d -> winner r = 0).
Proof.
  intros D Rd F Hr.
  pose proof (cpu_jitter_range cc) as J.
  assert (Ta : target_a undef bias cc = baseline - d + cpu_jitter cc).
  { rewrite target_a_value, (drift_defined undef bias d D).
    apply Z.mod_small. unfold baseline. lia. }
  assert (Tb : target_b undef bias = baseline + d).
  { rewrite target_b_value, (drift_defined undef bias d D).
    apply Z.mod_small. unfold baseline. lia. }
  split; [exact Ta|]. split; [exact Tb|].
  apply run_spec in Hr as (m & Hm & ->).
  pose proof (race_exit_in_range _ _ _ _ _ _ Hm) as Rg.
  destruct (extract_value m Rg) as (W & L & _). rewrite W, L.
  apply race_exit_spec in Hm as (n & _ & X & ->).
  unfold baseline, timeout in *.
  assert (La : target_a undef bias cc <= 5000) by lia.
  assert (Lb : target_b undef bias <= 5000) by lia.
  destruct (both_set_at_exit now _ _ F n La Lb X) as [Na Nb].
  pose proof (marker_a_above now _ _ (proj1 (target_a_range undef bias cc)) F _ Na) as Aa.
  pose proof (marker_b_above now _ _ (proj1 (target_b_range undef bias)) F _ Nb) as Ab.
  pose proof (b_before_a now _ _ (proj1 (target_a_range undef bias cc))
                (proj1 (target_b_range undef bias)) F (S n) Na Nb) as [O1 O2].
  split; [lia|]. intros D2.
  destruct (Z.leb_spec
              (arrival_a (trace now (target_a undef bias cc) (target_b undef bias) (S n)))
              (arrival_b (trace now (target_a undef bias cc) (target_b undef bias) (S n))));
    [reflexivity | lia].
Qed.

(** X4.  For a bias whose drift [(int)(bias * 500)] is between 2 and 1000
    (every bias from 0.004 to 2.0), the threshold of A is not above that
    of B, and with readings that fit 32 bits the winner is always A,
    whatever the jitter and the clock; the latency is at least
    [1000 - drift]. *)
Theorem drift_decides_for_A fuel undef bias cc now d r :
  F32.to_int (F32.mul bias (F32.of_int bias_scale)) = Some d ->
  2 <= d <= 1000 ->
  (forall k, elapsed now k < 2 ^ 32) ->
  run_symmetric_race fuel undef bias cc now = Some r ->
  target_a undef bias cc <= target_b undef bias /\
  winner r = 0 /\
  baseline - d <= latency r.
Proof.
  intros D Rd F Hr.
  destruct (race_with_drift fuel undef bias cc now d r D ltac:(lia) F Hr)
    as (Ta & Tb & L & W).
  pose proof (cpu_jitter_range cc) as J.
  split; [rewrite Ta, Tb; lia|]. split; [apply W; lia | exact L].
Qed.

(** Bias 0.5 (drift 250), jitter 4, a clock advancing by 100. *)
Lemma drift_decides_for_A_witness :
  target_a 0 bias_0_5 9 <= target_b 0 bias_0_5 /\
  winner (Result 0 800 500) = 0 /\
  baseline - 250 <= latency (Result 0 800 500).
Proof.
  apply (drift_decides_for_A 20 0 bias_0_5 9 (capped (ticking 77 100) 1000000) 250).
  - vm_compute. reflexivity.
  - lia.
  - intros k. apply capped_ticking_fits; lia.
  - vm_compute. reflexivity.
Defined.

(** X5.  When the jitter is twice the drift (bias 0.0 with jitter 0, for
    instance) the two thresholds coincide, and then every race is a tie,
    whatever the clock: the two markers are equal when the loop is left,
    the winner is A and the delta is 0. *)
Theorem equal_thresholds_tie fuel undef bias cc now m r :
  cpu_jitter cc = 2 * drift undef bias ->
  race_exit fuel undef bias cc now = Some m ->
  run_symmetric_race fuel undef bias cc now = Some r ->
  target_a undef bias cc = target_b undef bias /\
  arrival_a m = arrival_b m /\
  winner r = 0 /\ latency r = arrival_a m /\ delta r = 0.
Proof.
  intros J Hm Hr.
  assert (T : target_a undef bias cc = target_b undef bias).
  { rewrite target_a_value, target_b_value, J. f_equal. lia. }
  assert (R : r = extract m).
  { apply run_spec in Hr as (m' & Hm' & ->). congruence. }
  pose proof (race_exit_in_range _ _ _ _ _ _ Hm) as Rg.
  destruct (extract_value m Rg) as (W & L & D). subst r. rewrite W, L, D.
  apply race_exit_spec in Hm as (n & _ & _ & ->).
  pose proof (trace_same_target now _ _ (S n) T) as E.
  split; [exact T|]. split; [exact E|]. rewrite E, Z.leb_refl. repeat split; lia.
Qed.

(** Bias 0.0 with jitter 0 and a clock advancing by 300: both markers are
    set to 1200. *)
Lemma equal_thresholds_tie_witness :
  target_a 0 bias_0 5 = target_b 0 bias_0 /\
  arrival_a (Markers 1200 1200) = arrival_b (Markers 1200 1200) /\
  winner (Result 0 1200 0) = 0 /\
  latency (Result 0 1200 0) = arrival_a (Markers 1200 1200) /\
  delta (Result 0 1200 0) = 0.
Proof.
  apply (equal_thresholds_tie 10 0 bias_0 5 (ticking 10 300));
    vm_compute; reflexivity.
Defined.

(** X6.  With a monotonic clock the delta is non-negative and the arrival
    time of the loser, latency plus delta, is at most the timeout 5000 plus
    the increment between the last two clock readings of the run; so is
    the delta. *)
Theorem delta_bounded fuel undef bias cc now r :
  monotonic now ->
  run_symmetric_race fuel undef bias cc now = Some r ->
  exists n,
    (n < fuel)%nat /\
    exits_at now (target_a undef bias cc) (target_b undef bias) n /\
    0 <= delta r /\
    latency r + delta r <= timeout + (now (S n) - now n) /\
    delta r <= timeout + (now (S n) - now n).
Proof.
  intros M H. apply run_spec in H as (m & Hm & ->).
  pose proof (race_exit_in_range _ _ _ _ _ _ Hm) as Rg.
  destruct (extract_value m Rg) as (_ & L & D). rewrite L, D.
  destruct Rg as [Ra Rb].
  apply race_exit_spec in Hm as (n & Hn & X & ->).
  exists n. split; [exact Hn|]. split; [exact X|].
  pose proof (marker_a_bounded now _ _ M n X).
  pose proof (marker_b_bounded now _ _ M n X).
  lia.
Qed.

(** Bias 0.5 and a clock advancing by 100: latency 800, delta 500. *)
Lemma delta_bounded_witness :
  exists n,
    (n < 20)%nat /\
    exits_at (capped (ticking 77 100) 1000000)
             (target_a 0 bias_0_5 0) (target_b 0 bias_0_5) n /\
    0 <= delta (Result 0 800 500) /\
    latency (Result 0 800 500) + delta (Result 0 800 500)
    <= timeout + (capped (ticking 77 100) 1000000 (S n)
                  - capped (ticking 77 100) 1000000 n) /\
    delta (Result 0 800 500)
    <= timeout + (capped (ticking 77 100) 1000000 (S n)
                  - capped (ticking 77 100) 1000000 n).
Proof.
  apply (delta_bounded 20 0 bias_0_5 0 (capped (ticking 77 100) 1000000)).
  - split; [unfold capped, ticking; simpl; lia|].
    intros n. unfold capped, ticking. rewrite Nat2Z.inj_succ. lia.
  - vm_compute. reflexivity.
Defined.

(** ** Negating the bias *)
Section Negation.

Lemma round_aux_opp s m e l :
  binary_round_aux F32.prec F32.emax (negb s) m e l
  = SFopp (binary_round_aux F32.prec F32.emax s m e l).
Proof.
  unfold binary_round_aux.
  destruct (shr_fexp F32.prec F32.emax m e l) as [mrs' e'].
  destruct (shr_fexp F32.prec F32.emax _ e' loc_Exact) as [mrs'' e''].
  destruct (shr_m mrs'') as [|p|p]; try reflexivity.
  destruct (e'' <=? F32.emax - F32.prec); reflexivity.
Qed.

Lemma mul_opp_l x y : F32.mul (f32_opp x) y = f32_opp (F32.mul x y).
Proof.
  unfold F32.mul, f32_opp.
  destruct x as [sx|sx| |sx mx ex], y as [sy|sy| |sy my ey];
    cbn [SFmul SFopp]; try reflexivity;
    try (rewrite <- negb_xorb_l; reflexivity).
  rewrite <- negb_xorb_l. apply round_aux_opp.
Qed.

Lemma trunc_opp f t : F32.trunc f = Some t -> F32.trunc (f32_opp f) = Some (- t).
Proof.
  destruct f as [s|s| |s m e]; cbn [F32.trunc f32_opp SFopp]; try discriminate.
  - now intros [= <-].
  - intros [= <-]. f_equal. generalize (Z.shiftl (Z.pos m) e). intros z.
    destruct s; simpl; lia.
Qed.

Lemma to_int_opp f d :
  F32.to_int f = Some d -> - 2 ^ 31 < d -> F32.to_int (f32_opp f) = Some (- d).
Proof.
  intros H L. pose proof (to_int_in_int f d H) as R.
  apply to_int_trunc in H. unfold F32.to_int. rewrite (trunc_opp f d H).
  replace (Mach.in_int (- d)) with true; [reflexivity|].
  symmetry. apply MachFacts.in_int_spec. lia.
Qed.

End Negation.

(** X7.  Negating the bias exchanges the two thresholds, up to the jitter
    that only A carries: when [(int)(bias * 500)] is defined and is not
    the least [int], the threshold of B for [-bias] is the threshold of A
    for [bias] without its jitter, and the threshold of A for [-bias] is
    the threshold of B for [bias] plus the jitter (modulo 2^32). *)
Theorem negated_bias_swaps_thresholds undef bias cc d :
  F32.to_int (F32.mul bias (F32.of_int bias_scale)) = Some d ->
  - 2 ^ 31 < d ->
  drift undef (f32_opp bias) = - drift undef bias /\
  target_a undef (f32_opp bias) cc
  = (target_b undef bias + cpu_jitter cc) mod 2 ^ 32 /\
  (target_b undef (f32_opp bias) + cpu_jitter cc) mod 2 ^ 32
  = target_a undef bias cc.
Proof.
  intros H L.
  assert (D : drift undef bias = d) by now apply drift_defined.
  assert (D' : drift undef (f32_opp bias) = - d).
  { apply drift_defined. rewrite mul_opp_l. now apply to_int_opp. }
  split; [congruence|].
  rewrite !target_a_value, !target_b_value, D, D'.
  rewrite !Zplus_mod_idemp_l. split; f_equal; lia.
Qed.

(** Bias 0.5 and -0.5: thresholds 750 + jitter and 1250, exchanged. *)
Lemma negated_bias_swaps_thresholds_witness :
  drift 0 (f32_opp bias_0_5) = - drift 0 bias_0_5 /\
  target_a 0 (f32_opp bias_0_5) 3
  = (target_b 0 bias_0_5 + cpu_jitter 3) mod 2 ^ 32 /\
  (target_b 0 (f32_opp bias_0_5) + cpu_jitter 3) mod 2 ^ 32
  = target_a 0 bias_0_5 3.
Proof.
  apply (negated_bias_swaps_thresholds 0 bias_0_5 3 250).
  - vm_compute. reflexivity.
  - vm_compute. reflexivity.
Defined.

(** ** The driver *)
Section Driver.
Variable fuel : nat.
Variable undef : Z.
Variable env : environment.

(** The record printed for a race. *)
Local Abbreviation row_of bias res :=
  (Row bias (winner res) (latency res) (delta res) (confidence res)).

Lemma repeat_race_spec bias : forall count c rows,
  repeat_race fuel undef env bias c count = Some rows ->
  length rows = count /\
  forall i, (i < count)%nat ->
    exists res,
      run_symmetric_race fuel undef bias (fst (env (c + i)%nat)) (snd (env (c + i)%nat))
      = Some res /\
      nth i rows Done = row_of bias res.
Proof.
  induction count as [|count IH]; intros c rows; cbn [repeat_race].
  - intros [= <-]. split; [reflexivity|]. intros i Hi. lia.
  - destruct (run_symmetric_race fuel undef bias (fst (env c)) (snd (env c)))
      as [res|] eqn:R; [|discriminate].
    destruct (repeat_race fuel undef env bias (S c) count) as [rest|] eqn:Q;
      [|discriminate].
    intros [= <-]. destruct (IH _ _ Q) as [Len Rows].
    split; [simpl; now rewrite Len|].
    intros [|i] Hi.
    + exists res. rewrite Nat.add_0_r. split; [exact R | reflexivity].
    + destruct (Rows i ltac:(lia)) as (res' & R' & N').
      exists res'. replace (c + S i)%nat with (S c + i)%nat by lia.
      split; [exact R' | exact N'].
Qed.

Lemma sweep_spec : forall biases c rows,
  sweep fuel undef env biases c = Some rows ->
  length rows = (100 * length biases)%nat /\
  forall b i, (b < length biases)%nat -> (i < 100)%nat ->
    exists res,
      run_symmetric_race fuel undef (nth b biases bias_0)
        (fst (env (c + 100 * b + i)%nat)) (snd (env (c + 100 * b + i)%nat))
      = Some res /\
      nth (100 * b + i)%nat rows Done = row_of (nth b biases bias_0) res.
Proof.
  induction biases as [|bias biases IH]; intros c rows; cbn [sweep].
  - intros [= <-]. split; [reflexivity|]. intros b i Hb. simpl in Hb. lia.
  - destruct (repeat_race fuel undef env bias c 100) as [first|] eqn:R;
      [|discriminate].
    destruct (sweep fuel undef env biases (c + 100)) as [more|] eqn:Q;
      [|discriminate].
    intros [= <-].
    destruct (repeat_race_spec bias _ _ _ R) as [Len1 Rows1].
    destruct (IH _ _ Q) as [Len2 Rows2].
    split; [rewrite length_app, Len1, Len2; simpl length; lia|].
    intros [|b] i Hb Hi.
    + destruct (Rows1 i Hi) as (res & Rr & N). exists res.
      replace (c + 100 * 0 + i)%nat with (c + i)%nat by lia.
      split; [exact Rr|].
      replace (100 * 0 + i)%nat with i by lia.
      rewrite app_nth1 by lia. exact N.
    + simpl in Hb. destruct (Rows2 b i ltac:(lia) Hi) as (res & Rr & N).
      exists res. cbn [nth].
      replace (c + 100 * S b + i)%nat with (c + 100 + 100 * b + i)%nat by lia.
      split; [exact Rr|].
      rewrite app_nth2 by lia.
      replace (100 * S b + i - length first)%nat with (100 * b + i)%nat by lia.
      exact N.
Qed.

Lemma app_main_inv out :
  app_main fuel undef env = Some out ->
  exists rows,
    sweep fuel undef env test_biases O = Some rows /\
    out = Header :: rows ++ Done :: nil.
Proof.
  unfold app_main.
  destruct (sweep fuel undef env test_biases 0) as [rows|]; [|discriminate].
  intros [= <-]. eauto.
Qed.

(** *** Returning *)

Lemma repeat_race_returns bias : forall count c,
  (forall i, (i < count)%nat ->
     exists res, run_symmetric_race fuel undef bias
                   (fst (env (c + i)%nat)) (snd (env (c + i)%nat)) = Some res) ->
  exists rows, repeat_race fuel undef env bias c count = Some rows.
Proof.
  induction count as [|count IH]; intros c H; cbn [repeat_race].
  - eauto.
  - destruct (H O ltac:(lia)) as (res & R). rewrite Nat.add_0_r in R. rewrite R.
    destruct (IH (S c)) as (rest & Q).
    { intros i Hi. destruct (H (S i) ltac:(lia)) as (res' & R').
      exists res'. now replace (S c + i)%nat with (c + S i)%nat by lia. }
    rewrite Q. eauto.
Qed.

Lemma sweep_returns : forall biases c,
  (forall bias k, (k < 100 * length biases)%nat ->
     exists res,
       run_symmetric_race fuel undef bias (fst (env (c + k)%nat)) (snd (env (c + k)%nat))
       = Some res) ->
  exists rows, sweep fuel undef env biases c = Some rows.
Proof.
  induction biases as [|bias biases IH]; intros c H; cbn [sweep].
  - eauto.
  - cbn [length] in H.
    destruct (repeat_race_returns bias 100 c) as (rows & R).
    { intros i Hi. apply H. lia. }
    rewrite R. destruct (IH (c + 100)%nat) as (more & Q).
    { intros b k Hk. replace (c + 100 + k)%nat with (c + (100 + k))%nat by lia.
      apply H. lia. }
    rewrite Q. eauto.
Qed.

End Driver.

(** A bound valid for finitely many calls. *)
Lemma uniform_bound (P : nat -> nat -> Prop) : forall N,
  (forall c, (c < N)%nat -> exists n, P c n) ->
  exists F, forall c, (c < N)%nat -> exists n, (n <= F)%nat /\ P c n.
Proof.
  induction N as [|N IH]; intros H.
  - exists O. intros c Hc. lia.
  - destruct IH as (F & HF); [intros c Hc; apply H; lia|].
    destruct (H N ltac:(lia)) as (n & Pn).
    exists (Nat.max F n). intros c Hc.
    destruct (Nat.eq_dec c N) as [->|Hne].
    + exists n. split; [lia | exact Pn].
    + destruct (HF c ltac:(lia)) as (n' & Hn' & Pn'). exists n'. split; [lia | exact Pn'].
Qed.

(** The drifts of the five biases of the sweep. *)
Lemma test_biases_drift b :
  (b < 5)%nat ->
  exists d,
    F32.to_int (F32.mul (nth b test_biases bias_0) (F32.of_int bias_scale)) = Some d /\
    0 <= d <= 475 /\ ((1 <= b)%nat -> 125 <= d).
Proof.
  intros Hb.
  destruct b as [|[|[|[|[|b]]]]]; [exists 0|exists 125|exists 250|exists 375|exists 475|lia];
    (split; [vm_compute; reflexivity|]); split; lia.
Qed.

(** X8.  When [app_main] runs to its end it has printed 502 lines: the
    header, 500 records and DONE.  Record number [100 * b + i] carries
    bias number [b] of the table, the winner, latency and delta returned
    by call number [100 * b + i] of [run_symmetric_race] for that bias,
    and the confidence computed from that latency. *)
Theorem app_main_output fuel undef env out :
  app_main fuel undef env = Some out ->
  length out = 502%nat /\
  nth 0 out Done = Header /\
  nth 501 out Header = Done /\
  forall b i, (b < 5)%nat -> (i < 100)%nat ->
    exists res,
      run_symmetric_race fuel undef (nth b test_biases bias_0)
        (fst (env (100 * b + i)%nat)) (snd (env (100 * b + i)%nat))
      = Some res /\
      nth (1 + 100 * b + i)%nat out Done
      = Row (nth b test_biases bias_0) (winner res) (latency res) (delta res)
            (f32_div (F32.of_int 1000) (F32.of_int (latency res))).
Proof.
  intros H. destruct (app_main_inv fuel undef env out H) as (rows & Q & ->).
  destruct (sweep_spec _ _ _ _ _ _ Q) as [Len Rows].
  change (length test_biases) with 5%nat in Len, Rows.
  split; [simpl; rewrite length_app, Len; reflexivity|].
  split; [reflexivity|]. split.
  - change (nth 501 (Header :: rows ++ Done :: nil) Header)
      with (nth 500 (rows ++ Done :: nil) Header).
    rewrite app_nth2 by lia. rewrite Len. reflexivity.
  - intros b i Hb Hi. destruct (Rows b i Hb Hi) as (res & R & N).
    exists res. split; [exact R|].
    change (nth (1 + 100 * b + i)%nat (Header :: rows ++ Done :: nil) Done)
      with (nth (100 * b + i)%nat (rows ++ Done :: nil) Done).
    rewrite app_nth1 by lia. exact N.
Qed.

Lemma app_main_output_witness :
  exists out,
    app_main 20 0 sample_env = Some out /\
    length out = 502%nat /\
    nth 0 out Done = Header /\
    nth 501 out Header = Done /\
    forall b i, (b < 5)%nat -> (i < 100)%nat ->
      exists res,
        run_symmetric_race 20 0 (nth b test_biases bias_0)
          (fst (sample_env (100 * b + i)%nat)) (snd (sample_env (100 * b + i)%nat))
        = Some res /\
        nth (1 + 100 * b + i)%nat out Done
        = Row (nth b test_biases bias_0) (winner res) (latency res) (delta res)
              (f32_div (F32.of_int 1000) (F32.of_int (latency res))).
Proof.
  eexists. split; [vm_compute; reflexivity|].
  apply (app_main_output 20 0 sample_env). vm_compute. reflexivity.
Defined.

(** X9.  [app_main] runs to its end, with its 502 lines, as soon as the
    clock of each of its 500 calls of [run_symmetric_race] eventually
    reads more than the timeout. *)
Theorem app_main_returns undef env :
  (forall c, (c < 500)%nat -> exists n, timeout < elapsed (snd (env c)) n) ->
  exists fuel out,
    app_main fuel undef env = Some out /\ length out = 502%nat.
Proof.
  intros H.
  destruct (uniform_bound (fun c n => timeout < elapsed (snd (env c)) n) 500 H)
    as (F & HF).
  destruct (sweep_returns (S F) undef env test_biases O) as (rows & Q).
  { intros bias k Hk. change (length test_biases) with 5%nat in Hk.
    destruct (HF k ltac:(lia)) as (n & Hn & T).
    destruct (race_returns undef bias (fst (env k)) (snd (env k)) n T)
      as (n0 & Hn0 & _ & R).
    eexists. unfold run_symmetric_race.
    cbn [Nat.add]. rewrite (R (S F)) by lia. reflexivity. }
  exists (S F). eexists. unfold app_main. rewrite Q. split; [reflexivity|].
  destruct (sweep_spec _ _ _ _ _ _ Q) as [Len _].
  simpl. rewrite length_app, Len. reflexivity.
Qed.

Lemma app_main_returns_witness :
  exists fuel out,
    app_main fuel 0 sample_env = Some out /\ length out = 502%nat.
Proof.
  apply (app_main_returns 0 sample_env).
  intros c Hc. exists 60%nat. vm_compute. reflexivity.
Defined.

(** X10.  With clock readings that fit 32 bits, every record printed by
    [app_main] has a latency of at least 525, so that the confidence is
    never computed from a latency of 0, and every record of the biases
    0.25, 0.5, 0.75 and 0.95 has winner A. *)
Theorem app_main_records fuel undef env out :
  app_main fuel undef env = Some out ->
  (forall c k, elapsed (snd (env c)) k < 2 ^ 32) ->
  forall b i, (b < 5)%nat -> (i < 100)%nat ->
    exists w l d c,
      nth (1 + 100 * b + i)%nat out Done = Row (nth b test_biases bias_0) w l d c /\
      525 <= l /\
      ((1 <= b)%nat -> w = 0).
Proof.
  intros H F b i Hb Hi.
  destruct (app_main_inv fuel undef env out H) as (rows & Q & ->).
  destruct (sweep_spec _ _ _ _ _ _ Q) as [Len Rows].
  change (length test_biases) with 5%nat in Len, Rows.
  destruct (Rows b i Hb Hi) as (res & R & N).
  change (nth (1 + 100 * b + i)%nat (Header :: rows ++ Done :: nil) Done)
    with (nth (100 * b + i)%nat (rows ++ Done :: nil) Done).
  rewrite app_nth1 by lia.
  destruct (test_biases_drift b Hb) as (d & D & Rd & Rb).
  destruct (race_with_drift _ _ _ _ _ d res D ltac:(lia) (F _) R) as (_ & _ & L & W).
  exists (winner res), (latency res), (delta res), (confidence res).
  split; [exact N|]. unfold baseline in L. split; [lia|].
  intros B1. apply W. specialize (Rb B1). lia.
Qed.

Lemma app_main_records_witness :
  exists out,
    app_main 20 0 sample_env = Some out /\
    forall b i, (b < 5)%nat -> (i < 100)%nat ->
      exists w l d c,
        nth (1 + 100 * b + i)%nat out Done = Row (nth b test_biases bias_0) w l d c /\
        525 <= l /\
        ((1 <= b)%nat -> w = 0).
Proof.
  eexists. split; [vm_compute; reflexivity|].
  apply (app_main_records 20 0 sample_env).
  - vm_compute. reflexivity.
  - intros c k. apply capped_ticking_fits; lia.
Defined.

(** X11.  When the loop is left with a marker still at the sentinel 0, the
    latency returned is 0 and the confidence that [app_main] computes from
    it, [1000.0f / 0.0f], is the float +infinity: the division does not
    fail. *)
Theorem confidence_at_sentinel fuel undef bias cc now m r :
  race_exit fuel undef bias cc now = Some m ->
  run_symmetric_race fuel undef bias cc now = Some r ->
  arrival_a m = 0 \/ arrival_b m = 0 ->
  latency r = 0 /\ confidence r = S754_infinity false.
Proof.
  intros Hm Hr Z0.
  assert (R : r = extract m).
  { apply run_spec in Hr as (m' & Hm' & ->). congruence. }
  pose proof (race_exit_in_range _ _ _ _ _ _ Hm) as Rg.
  destruct (extract_value m Rg) as (_ & L & _). destruct Rg as [Ra Rb].
  assert (L0 : latency r = 0) by (subst r; lia).
  split; [exact L0|]. unfold confidence. rewrite L0. reflexivity.
Qed.

(** Bias 2.5 and a clock advancing by 100: path A never arrives. *)
Lemma confidence_at_sentinel_witness :
  latency (Result 0 0 2300) = 0 /\
  confidence (Result 0 0 2300) = S754_infinity false.
Proof.
  apply (confidence_at_sentinel 60 0 bias_2_5 0 (ticking 123456 100) (Markers 0 2300)).
  - vm_compute. reflexivity.
  - vm_compute. reflexivity.
  - left. reflexivity.
Defined.

(** The three other literals of the table are binary32 floats; 0.25 and
    0.75 are exact, and 0.95 is within half a unit in the last place of
    95/100. *)
Lemma table_well_formed :
  F32.well_formed bias_0 = true /\
  F32.well_formed bias_0_25 = true /\
  F32.well_formed bias_0_75 = true /\
  F32.well_formed bias_0_95 = true /\
  4 * 8388608 = 2 ^ 25 /\
  4 * 12582912 = 3 * 2 ^ 24 /\
  2 * Z.abs (100 * 15938355 - 95 * 2 ^ 24) <= 100.
Proof. vm_compute. repeat split; discriminate. Qed.
